(** * The JOS kernel monitor (kern/monitor.c): stack backtrace, page-mapping
      display, permission editing and memory dumping.

    The monitor is embedded shallowly.  Every [uint32_t] is a [Z] kept in
    [0, 2^32) by an explicit [wrap32]; the kernel's memory is a word store
    read and written through [load] and [store]; each [cprintf] call becomes
    one structured [line] carrying the arguments of its format string, so a
    command returns the list of lines it prints.  Loops whose termination
    depends on 32-bit arithmetic take a fuel argument and return [None] when
    the fuel runs out.  Argument parsing (hex2uint, dec2uint, the argc tests)
    is left out: a command takes the numbers its arguments parse to. *)

From Stdlib Require Import ZArith Lia Bool Ascii String List Btauto.
From coqutil Require Import Z.bitblast.
Import ListNotations.

Local Open Scope Z_scope.

(** ** Machine words and memory *)

Definition wrap32 (z : Z) : Z := z mod 2 ^ 32.

(** Memory as the C code sees it: a store of 32-bit words indexed by the
    address used to reach them.  Only aligned word accesses occur in the
    monitor (page-table entries, stack slots, dumped units). *)
Definition memory := Z -> Z.

Definition load (m : memory) (p : Z) : Z := wrap32 (m p).

Definition store (m : memory) (p v : Z) : memory :=
  fun a => if a =? p then wrap32 v else m a.

(** ** Constants and macros of inc/mmu.h, inc/memlayout.h and inc/types.h *)

(** Modelled from the spec: inc/mmu.h is not among the sources.  The x86
    two-level layout: a 10-bit directory index, a 10-bit table index and a
    12-bit page offset ("pass a pde (4MB)", "pass a pte (4KB)" in
    dump_virtmem; "PTE_U=0x4, PTE_W=0x2" in the usage text of mon_setperm). *)
Definition PGSIZE : Z := 4096.
Definition PTXSHIFT : Z := 12.
Definition PDXSHIFT : Z := 22.
Definition PTE_P : Z := 1.
Definition PTE_W : Z := 2.
Definition PTE_U : Z := 4.

(** Modelled from the spec: inc/memlayout.h is not among the sources.
    "At most 256MB above KERNBASE" (dump_physmem). *)
Definition KERNBASE : Z := 0xF0000000.

(** monitor.c's own constants. *)
Definition UNIT_LEN : Z := 4.
Definition MAX_MEM : Z := 0xffffffff.

Definition MIN_ADDR (x y : Z) : Z := if x <=? y then x else y.

(** Modelled from the spec: the address-splitting macros of inc/mmu.h,
    the directory index, the table index, the page offset of a linear
    address, the linear address built from three such fields (shifted into
    place and combined with bitwise or, in 32 bits), and the physical base
    held by a table entry. *)
Definition PDX (la : Z) : Z := Z.land (Z.shiftr la PDXSHIFT) 0x3FF.
Definition PTX (la : Z) : Z := Z.land (Z.shiftr la PTXSHIFT) 0x3FF.
Definition PGOFF (la : Z) : Z := Z.land la 0xFFF.
Definition PGADDR (d t o : Z) : Z :=
  wrap32 (Z.lor (Z.lor (Z.shiftl d PDXSHIFT) (Z.shiftl t PTXSHIFT)) o).
Definition PTE_ADDR (pte : Z) : Z := Z.land pte (Z.lnot 0xFFF).

(** inc/types.h: round down to the nearest multiple of [n]. *)
Definition ROUNDDOWN (a n : Z) : Z := wrap32 (a - a mod n).

(** ** What the monitor prints *)

(** struct Eipdebuginfo of kern/kdebug.h. *)
Record Eipdebuginfo := mkEipdebuginfo {
  eip_file : string;
  eip_line : Z;
  eip_fn_name : string;
  eip_fn_namelen : Z;
  eip_fn_addr : Z;
  eip_fn_narg : Z
}.

(** One constructor per [cprintf] call of the commands modelled here. *)
Inductive line : Type :=
| BacktraceHeader
| BacktraceFrame (ebp eip : Z) (args : list Z)
| BacktraceInfo (file : string) (line_no : Z) (namelen : Z) (fn_name : string)
                (offset : Z)
| ShowRange (start_addr end_addr : Z)
| ShowVA (va : Z)
| PtePA (pa : Z) (w u : bool)
| PteNoMapping
| PermSet (perm va : Z)
| PermNoMapping (va : Z)
| RangeOutOfMemory
| PhysUnit (pa content : Z)
| VirtUnmapped (va : Z)
| VirtMapped (va pa content : Z).

(** ** The commands *)

Section Monitor.

(** What the monitor takes from the rest of the kernel. *)

(** [pgdir_walk(pgdir, va, 0)] of kern/pmap.c: the address of the table
    entry for [va], or 0 (NULL).  All three call sites pass [create = 0],
    so the walk never allocates and never writes. *)
Variable pgdir_walk : memory -> Z -> Z -> Z.
(** The kernel's page directory, a kernel virtual address. *)
Variable kern_pgdir : Z.
(** Number of physical pages installed. *)
Variable npages : Z.
(** [KADDR] and [PADDR] of kern/pmap.h, as address translations; their
    panics on an address outside the kernel's map are not modelled. *)
Variable KADDR : Z -> Z.
Variable PADDR : Z -> Z.
(** [debuginfo_eip] of kern/kdebug.c; its status result is ignored by the
    monitor, only the filled-in record is used. *)
Variable debuginfo_eip : Z -> Eipdebuginfo.

(** *** mon_backtrace *)

(** The two lines printed for the frame at [ebp]; [ebp] is a [uint32_t *],
    so [ebp + k] is [4 * k] bytes further. *)
Definition backtrace_frame (m : memory) (ebp : Z) : list line :=
  let eip := load m (wrap32 (ebp + 4 * 1)) in
  let info := debuginfo_eip eip in
  [ BacktraceFrame ebp eip
      [ load m (wrap32 (ebp + 4 * 2)); load m (wrap32 (ebp + 4 * 3));
        load m (wrap32 (ebp + 4 * 4)); load m (wrap32 (ebp + 4 * 5));
        load m (wrap32 (ebp + 4 * 6)) ];
    BacktraceInfo (eip_file info) (eip_line info) (eip_fn_namelen info)
      (eip_fn_name info) (wrap32 (eip - eip_fn_addr info)) ].

(** [while (ebp) { ...; ebp = (uint32_t * ) ( *ebp); }] *)
Fixpoint backtrace_loop (fuel : nat) (m : memory) (ebp : Z)
  : option (list line) :=
  match fuel with
  | O => None
  | S fuel' =>
      if ebp =? 0 then Some []
      else
        match backtrace_loop fuel' m (load m ebp) with
        | Some rest => Some (backtrace_frame m ebp ++ rest)
        | None => None
        end
  end.

(** [read_ebp()] is the argument [ebp]. *)
Definition mon_backtrace (fuel : nat) (m : memory) (ebp : Z)
  : option (list line) :=
  match backtrace_loop fuel m ebp with
  | Some out => Some (BacktraceHeader :: out)
  | None => None
  end.

(** *** print_pte and mon_showmapping *)

(** The test [pte && ( *pte & PTE_P)] shared by print_pte and mon_setperm. *)
Definition pte_present (m : memory) (pte : Z) : bool :=
  negb (pte =? 0) && negb (Z.land (load m pte) PTE_P =? 0).

Definition print_pte (m : memory) (pte : Z) : line :=
  if pte_present m pte then
    PtePA (PTE_ADDR (load m pte))
          (negb (Z.land (load m pte) PTE_W =? 0))
          (negb (Z.land (load m pte) PTE_U =? 0))
  else if pte =? kern_pgdir then
    PtePA (PADDR kern_pgdir) false false
  else
    PteNoMapping.

(** [for (; start_addr <= end_addr; start_addr += PGSIZE)] *)
Fixpoint showmapping_loop (fuel : nat) (m : memory) (start_addr end_addr : Z)
  : option (list line) :=
  match fuel with
  | O => None
  | S fuel' =>
      if start_addr <=? end_addr then
        let pte := pgdir_walk m kern_pgdir start_addr in
        match showmapping_loop fuel' m (wrap32 (start_addr + PGSIZE)) end_addr
        with
        | Some rest => Some (ShowVA start_addr :: print_pte m pte :: rest)
        | None => None
        end
      else Some []
  end.

Definition mon_showmapping (fuel : nat) (m : memory) (start_addr end_addr : Z)
  : option (list line) :=
  let start_addr := ROUNDDOWN start_addr PGSIZE in
  let end_addr := ROUNDDOWN end_addr PGSIZE in
  match showmapping_loop fuel m start_addr end_addr with
  | Some out => Some (ShowRange start_addr end_addr :: out)
  | None => None
  end.

(** *** mon_setperm *)

(** Returns the memory after the command and what it printed. *)
Definition mon_setperm (m : memory) (va perm : Z) : memory * list line :=
  let perm := Z.land perm 0xfff in
  let pte := pgdir_walk m kern_pgdir va in
  if pte_present m pte then
    (store m pte
       (Z.lor (Z.lor (Z.land (load m pte) (Z.lnot 0xfff)) perm) PTE_P),
     [PermSet perm va])
  else
    (m, [PermNoMapping va]).

(** *** dump_physmem, dump_virtmem and mon_dumpmemory *)

(** [for (; a < next_addr; a += 4) cprintf(...)]: the lines printed and the
    value of the loop variable on exit. *)
Fixpoint for_units (fuel : nat) (body : Z -> line) (a next_addr : Z)
  : option (list line * Z) :=
  match fuel with
  | O => None
  | S fuel' =>
      if a <? next_addr then
        match for_units fuel' body (wrap32 (a + UNIT_LEN)) next_addr with
        | Some (out, a') => Some (body a :: out, a')
        | None => None
        end
      else Some ([], a)
  end.

Definition dump_physmem (fuel : nat) (m : memory) (start_pa n : Z)
  : option (list line) :=
  if wrap32 (start_pa + n) >? wrap32 (npages * PGSIZE) then
    Some [RangeOutOfMemory]
  else
    let end_pa := wrap32 (start_pa + n) in
    let next_addr := MIN_ADDR end_pa (wrap32 (MAX_MEM - KERNBASE + 1)) in
    match for_units fuel (fun pa => PhysUnit pa (load m (KADDR pa)))
                    start_pa next_addr with
    | Some (out, _) => Some out
    | None => None
    end.

(** The three branches of the body of dump_virtmem's while loop: which line
    is printed per unit and where the inner loop stops. *)
Definition virt_run (m : memory) (start_va end_va : Z) : (Z -> line) * Z :=
  let pte := pgdir_walk m kern_pgdir start_va in
  if pte =? 0 then
    (VirtUnmapped, MIN_ADDR end_va (PGADDR (PDX start_va + 1) 0 0))
  else if Z.land (load m pte) PTE_P =? 0 then
    (VirtUnmapped, MIN_ADDR end_va (PGADDR (PDX start_va) (PTX start_va + 1) 0))
  else
    (fun va => VirtMapped va (Z.lor (PTE_ADDR (load m pte)) (PGOFF va))
                          (load m va),
     MIN_ADDR end_va (PGADDR (PDX start_va) (PTX start_va + 1) 0)).

(** [while (start_va < end_va) { ... }] *)
Fixpoint virtmem_loop (fuel : nat) (m : memory) (start_va end_va : Z)
  : option (list line) :=
  match fuel with
  | O => None
  | S fuel' =>
      if start_va <? end_va then
        let (body, next_addr) := virt_run m start_va end_va in
        match for_units fuel' body start_va next_addr with
        | Some (out, start_va') =>
            match virtmem_loop fuel' m start_va' end_va with
            | Some rest => Some (out ++ rest)
            | None => None
            end
        | None => None
        end
      else Some []
  end.

Definition dump_virtmem (fuel : nat) (m : memory) (start_va n : Z)
  : option (list line) :=
  let end_va := wrap32 (start_va + n) in
  virtmem_loop fuel m start_va end_va.

(** [phys] is [argv[1][0] == 'p']; [start_addr] and [n] are the values of
    hex2uint(argv[2]) and dec2uint(argv[3]). *)
Definition mon_dumpmemory (fuel : nat) (m : memory) (phys : bool)
  (start_addr n : Z) : option (list line) :=
  let start_addr := ROUNDDOWN start_addr UNIT_LEN in
  let n := wrap32 (n * UNIT_LEN) in
  if phys then dump_physmem fuel m start_addr n
  else dump_virtmem fuel m start_addr n.

End Monitor.

(** ** The page-table walk *)

(** Modelled from the spec: pgdir_walk of kern/pmap.c is not among the
    sources; this is "the underlying two-level page-table walk" called with
    [allocate = false]: the directory entry selected by the directory index
    of [va] is read; without its present bit the walk returns NULL, otherwise
    it returns the address of the entry selected by the table index of [va]
    in the table the directory entry points to, reached through the kernel's
    view [KADDR] of physical memory. *)
Definition two_level_walk (KADDR : Z -> Z) (m : memory) (pgdir va : Z) : Z :=
  let pde := load m (wrap32 (pgdir + 4 * PDX va)) in
  if Z.land pde PTE_P =? 0 then 0
  else wrap32 (KADDR (PTE_ADDR pde) + 4 * PTX va).

(** Modelled from the spec: the "pure function from physical address to a
    dereferenceable virtual alias", the kernel's linear map at KERNBASE. *)
Definition kaddr (pa : Z) : Z := wrap32 (pa + KERNBASE).

(** Modelled from the spec: PADDR of kern/pmap.h, the inverse of the
    kernel's linear map. *)
Definition paddr (kva : Z) : Z := wrap32 (kva - KERNBASE).

(** ** Argument parsing: hex2uint and dec2uint

    A C string is the characters before its terminating NUL; in a [string]
    that holds a NUL character the loops below stop there, as the C loops
    do. *)

(** The value of a [char], signed as on the i386. *)
Definition char_val (c : ascii) : Z :=
  let n := Z.of_N (N_of_ascii c) in
  if n <? 128 then n else n - 256.

Definition is_nul (c : ascii) : bool := char_val c =? 0.

(** The digit hex2uint adds for one character: "treat any unknown char to
    '0'". *)
Definition hex_digit (c : ascii) : Z :=
  if (char_val "a" <=? char_val c) && (char_val c <=? char_val "f") then
    char_val c - char_val "a" + 10
  else if (char_val "0" <=? char_val c) && (char_val c <=? char_val "9") then
    char_val c - char_val "0"
  else 0.

(** [while ( *xbuf != '\0') { sum <<= 4; ...; xbuf++; }] *)
Fixpoint hex2uint_loop (xbuf : string) (sum : Z) : Z :=
  match xbuf with
  | EmptyString => sum
  | String c rest =>
      if is_nul c then sum
      else
        let sum := wrap32 (Z.shiftl sum 4) in
        let sum :=
          if (char_val "a" <=? char_val c) && (char_val c <=? char_val "f")
          then wrap32 (sum + (char_val c - char_val "a" + 10))
          else if (char_val "0" <=? char_val c) && (char_val c <=? char_val "9")
          then wrap32 (sum + (char_val c - char_val "0"))
          else sum in
        hex2uint_loop rest sum
  end.

(** [xbuf += 2] skips two characters unseen.  On a string of fewer than two
    characters the C code reads past the terminator; what it finds there is
    not modelled and the result is [None]. *)
Definition hex2uint (xbuf : string) : option Z :=
  match xbuf with
  | String c1 (String c2 rest) =>
      if is_nul c1 || is_nul c2 then None
      else Some (hex2uint_loop rest 0)
  | _ => None
  end.

(** [while ( *xbuf != '\0') { sum *= 10; ...; xbuf++; }] *)
Fixpoint dec2uint_loop (xbuf : string) (sum : Z) : Z :=
  match xbuf with
  | EmptyString => sum
  | String c rest =>
      if is_nul c then sum
      else
        let sum := wrap32 (sum * 10) in
        let sum :=
          if (char_val "0" <=? char_val c) && (char_val c <=? char_val "9")
          then wrap32 (sum + (char_val c - char_val "0"))
          else sum in
        dec2uint_loop rest sum
  end.

Definition dec2uint (xbuf : string) : Z := dec2uint_loop xbuf 0.

(** ** The command line: runcmd and monitor *)

(** What the command layer prints: the lines of the commands above, and one
    constructor per further [cprintf] call. *)
Inductive message : Type :=
| Out (l : line)
| HelpEntry (name desc : string)
| KernSymbols
| KernStart (start : Z)
| KernEntry (virt phys : Z)
| KernEtext (virt phys : Z)
| KernEdata (virt phys : Z)
| KernEnd (virt phys : Z)
| KernFootprint (kilobytes : Z)
| ShowmappingUsage
| SetpermUsage
| SetpermPermissions
| DumpmemHelp
| TooManyArguments (max : Z)
| UnknownCommand (name : string)
| Welcome
| HelpHint.

(** How a call ends: it returns a status, the memory and what it printed;
    or it read past the end of an argument string; or the fuel ran out. *)
Inductive outcome : Type :=
| Returns (status : Z) (m : memory) (out : list message)
| PastArgument
| OutOfFuel.

(** The entries of [commands[]]; the function pointer is a tag. *)
Inductive command : Type :=
| CmdHelp | CmdKerninfo | CmdBacktrace | CmdShowmapping | CmdSetperm
| CmdDumpmem.

Definition commands : list (string * string * command) :=
  [ ("help", "Display this list of commands", CmdHelp);
    ("kerninfo", "Display information about the kernel", CmdKerninfo);
    ("backtrace", "Display backtrace infomation to help your to debug",
     CmdBacktrace);
    ("showmapping",
     "Display all of the physical page mappings applying to a range of virtual address",
     CmdShowmapping);
    ("setperm", "Explicitly set permissions of any mapping.", CmdSetperm);
    ("dumpmem", "Dump the contents of a range of memory (va/pa).",
     CmdDumpmem) ]%string.

Definition MAXARGS : Z := 16.

(** [strchr(WHITESPACE, c)] for a character other than NUL. *)
Definition is_whitespace (c : ascii) : bool :=
  (c =? "009")%char || (c =? "013")%char || (c =? "010")%char
  || (c =? " ")%char.

(** [while ( *buf && strchr(WHITESPACE, *buf)) *buf++ = 0;] *)
Fixpoint skip_whitespace (buf : string) : string :=
  match buf with
  | EmptyString => EmptyString
  | String c rest =>
      if negb (is_nul c) && is_whitespace c then skip_whitespace rest
      else buf
  end.

(** [while ( *buf && !strchr(WHITESPACE, *buf)) buf++;]: the characters
    passed over, which are the argument once the whitespace after them is
    overwritten with NUL, and the rest of the buffer. *)
Fixpoint scan_word (buf : string) : string * string :=
  match buf with
  | EmptyString => (EmptyString, EmptyString)
  | String c rest =>
      if negb (is_nul c) && negb (is_whitespace c) then
        let (word, rest') := scan_word rest in (String c word, rest')
      else (EmptyString, buf)
  end.

(** [ *buf == 0] *)
Definition at_end (buf : string) : bool :=
  match buf with
  | EmptyString => true
  | String c _ => is_nul c
  end.

(** The argument-splitting loop of runcmd: [None] when the fuel runs out,
    [Some None] for too many arguments, [Some (Some argv)] otherwise. *)
Fixpoint parse_loop (fuel : nat) (buf : string) (argv : list string)
  : option (option (list string)) :=
  match fuel with
  | O => None
  | S fuel' =>
      let buf := skip_whitespace buf in
      if at_end buf then Some (Some argv)
      else if Z.of_nat (List.length argv) =? MAXARGS - 1 then Some None
      else
        let (word, rest) := scan_word buf in
        parse_loop fuel' rest (argv ++ [word])
  end.

(** ROUNDUP of inc/types.h, and the reading of a 32-bit word as an [int]. *)
Definition ROUNDUP (a n : Z) : Z := ROUNDDOWN (wrap32 (wrap32 a + n - 1)) n.

Definition signed32 (v : Z) : Z := if v <? 2 ^ 31 then v else v - 2 ^ 32.

(** The linker symbols mon_kerninfo prints. *)
Record Symbols := mkSymbols {
  sym_start : Z;
  sym_entry : Z;
  sym_etext : Z;
  sym_edata : Z;
  sym_end : Z
}.

Section CommandLine.

Variable pgdir_walk : memory -> Z -> Z -> Z.
Variable kern_pgdir : Z.
Variable npages : Z.
Variable KADDR : Z -> Z.
Variable PADDR : Z -> Z.
Variable debuginfo_eip : Z -> Eipdebuginfo.
Variable symbols : Symbols.
(** What [read_ebp()] returns inside mon_backtrace. *)
Variable read_ebp : Z.

Definition mon_help : list message :=
  map (fun c => HelpEntry (fst (fst c)) (snd (fst c))) commands.

(** [end - entry] is an [int]; ROUNDUP keeps that type and the division is
    C's, towards zero. *)
Definition mon_kerninfo : list message :=
  [ KernSymbols;
    KernStart (sym_start symbols);
    KernEntry (sym_entry symbols) (wrap32 (sym_entry symbols - KERNBASE));
    KernEtext (sym_etext symbols) (wrap32 (sym_etext symbols - KERNBASE));
    KernEdata (sym_edata symbols) (wrap32 (sym_edata symbols - KERNBASE));
    KernEnd (sym_end symbols) (wrap32 (sym_end symbols - KERNBASE));
    KernFootprint
      (Z.quot (signed32 (ROUNDUP (sym_end symbols - sym_entry symbols) 1024))
              1024) ].

Definition lines (m : memory) (r : option (list line)) : outcome :=
  match r with
  | Some out => Returns 0 m (map Out out)
  | None => OutOfFuel
  end.

Definition showmapping_command (fuel : nat) (m : memory) (argv : list string)
  : outcome :=
  match argv with
  | [_; a1; a2] =>
      match hex2uint a1, hex2uint a2 with
      | Some start_addr, Some end_addr =>
          lines m (mon_showmapping pgdir_walk kern_pgdir PADDR fuel m
                     start_addr end_addr)
      | _, _ => PastArgument
      end
  | _ => Returns 0 m [ShowmappingUsage]
  end.

Definition setperm_command (m : memory) (argv : list string) : outcome :=
  match argv with
  | [_; a1; a2] =>
      match hex2uint a1, hex2uint a2 with
      | Some va, Some perm =>
          let (m', out) := mon_setperm pgdir_walk kern_pgdir m va perm in
          Returns 0 m' (map Out out)
      | _, _ => PastArgument
      end
  | _ => Returns 0 m [SetpermUsage; SetpermPermissions]
  end.

(** [argv[1][0]]: the first character of an argument, which is never
    empty. *)
Definition first_char (s : string) : ascii :=
  match s with
  | String c _ => c
  | EmptyString => "000"%char
  end.

Definition dumpmemory_command (fuel : nat) (m : memory) (argv : list string)
  : outcome :=
  match argv with
  | [_; a1; a2; a3] =>
      if negb (first_char a1 =? "p")%char && negb (first_char a1 =? "v")%char
      then Returns 0 m [DumpmemHelp]
      else
        let phys := (first_char a1 =? "p")%char in
        match hex2uint a2 with
        | Some start_addr =>
            lines m (mon_dumpmemory pgdir_walk kern_pgdir npages KADDR fuel m
                       phys start_addr (dec2uint a3))
        | None => PastArgument
        end
  | _ => Returns 0 m [DumpmemHelp]
  end.

(** [commands[i].func(argc, argv, tf)] *)
Definition call (c : command) (fuel : nat) (m : memory) (argv : list string)
  : outcome :=
  match c with
  | CmdHelp => Returns 0 m mon_help
  | CmdKerninfo => Returns 0 m mon_kerninfo
  | CmdBacktrace => lines m (mon_backtrace debuginfo_eip fuel m read_ebp)
  | CmdShowmapping => showmapping_command fuel m argv
  | CmdSetperm => setperm_command m argv
  | CmdDumpmem => dumpmemory_command fuel m argv
  end.

(** The lookup loop of runcmd: the first entry whose name is [name]. *)
Fixpoint lookup_command (table : list (string * string * command))
  (name : string) : option command :=
  match table with
  | [] => None
  | (n, _, c) :: rest =>
      if (name =? n)%string then Some c else lookup_command rest name
  end.

Definition runcmd (fuel : nat) (m : memory) (buf : string) : outcome :=
  match parse_loop (S (String.length buf)) buf [] with
  | None => OutOfFuel
  | Some None => Returns 0 m [TooManyArguments MAXARGS]
  | Some (Some []) => Returns 0 m []
  | Some (Some (name :: args)) =>
      match lookup_command commands name with
      | Some c => call c fuel m (name :: args)
      | None => Returns 0 m [UnknownCommand name]
      end
  end.

(** The loop of monitor over the lines readline returns, [None] being a
    NULL from readline; the loop is left when runcmd returns a negative
    status. *)
Fixpoint monitor_loop (fuel : nat) (m : memory) (input : list (option string))
  : outcome :=
  match input with
  | [] => Returns 0 m []
  | None :: rest => monitor_loop fuel m rest
  | Some buf :: rest =>
      match runcmd fuel m buf with
      | Returns status m' out =>
          if status <? 0 then Returns status m' out
          else
            match monitor_loop fuel m' rest with
            | Returns status' m'' out' => Returns status' m'' (out ++ out')
            | other => other
            end
      | other => other
      end
  end.

Definition monitor (fuel : nat) (m : memory) (input : list (option string))
  : outcome :=
  match monitor_loop fuel m input with
  | Returns status m' out => Returns status m' (Welcome :: HelpHint :: out)
  | other => other
  end.

End CommandLine.

(** ** Vocabulary of the statements *)

(** [lo], [lo + step], ..., [count] addresses in all. *)
Definition stride (step lo : Z) (count : nat) : list Z :=
  map (fun k => lo + step * Z.of_nat k) (seq 0 count).

(** How many addresses [lo], [lo + step], ... lie below [hi]. *)
Definition stride_count (step lo hi : Z) : nat :=
  Z.to_nat ((hi - lo + (step - 1)) / step).

(** The 4-byte units from [lo] up to, not including, [hi]. *)
Definition units (lo hi : Z) : list Z :=
  stride UNIT_LEN lo (stride_count UNIT_LEN lo hi).

(** The pages from [lo] through [hi], both page-aligned, [hi] included. *)
Definition pages (lo hi : Z) : list Z :=
  stride PGSIZE lo (stride_count PGSIZE lo (hi + 1)).

(** The address a dump line is about. *)
Definition dump_address (l : line) : list Z :=
  match l with
  | PhysUnit pa _ => [pa]
  | VirtUnmapped va => [va]
  | VirtMapped va _ _ => [va]
  | _ => []
  end.

Definition dump_addresses (out : list line) : list Z :=
  flat_map dump_address out.

(** The frame base a backtrace line reports. *)
Definition frame_base (l : line) : list Z :=
  match l with
  | BacktraceFrame ebp _ _ => [ebp]
  | _ => []
  end.

Definition frame_bases (out : list line) : list Z :=
  flat_map frame_base out.

(** A frame chain in memory: the non-zero frame bases met from [ebp] by
    following the saved-base links, ending at a zero link. *)
Inductive frame_chain (m : memory) : Z -> list Z -> Prop :=
| chain_end : frame_chain m 0 []
| chain_link ebp rest :
    ebp <> 0 ->
    frame_chain m (load m ebp) rest ->
    frame_chain m ebp (ebp :: rest).

(** What the backtrace is to report for one frame, in the words of the
    specification: the return address sits one word above the frame base,
    the five arguments in the five words above the return address, and the
    offset is the return address minus the start of the resolved function. *)
Definition frame_report (resolve : Z -> Eipdebuginfo) (m : memory) (ebp : Z)
  : list line :=
  let return_slot := wrap32 (ebp + 4) in
  let return_address := load m return_slot in
  let arguments :=
    map (fun k => load m (wrap32 (return_slot + 4 * k))) [1; 2; 3; 4; 5] in
  let info := resolve return_address in
  [ BacktraceFrame ebp return_address arguments;
    BacktraceInfo (eip_file info) (eip_line info) (eip_fn_namelen info)
      (eip_fn_name info) (wrap32 (return_address - eip_fn_addr info)) ].

(** The first address after [va] that lies in another directory entry's
    4MB region, and the first that lies in another page. *)
Definition next_pde_boundary (va : Z) : Z := (va / 2 ^ 22 + 1) * 2 ^ 22.
Definition next_page_boundary (va : Z) : Z := (va / 2 ^ 12 + 1) * 2 ^ 12.

(** The physical-mode clamp in the words of the specification: records for
    the units from [start] up to the least of the requested end, the
    installed memory and the ceiling of what the kernel maps. *)
Definition clamped_units (npages start n : Z) : list Z :=
  units start
    (Z.min (Z.min (start + n) (npages * PGSIZE)) (MAX_MEM - KERNBASE + 1)).

(** Whether the bound dump_virtmem computes for a run starting at [va] with
    walk result [pte] falls outside what the index fields can hold: the
    directory index after the last one, or the table index after the last one
    carried into a directory index whose low bit is already set. *)
Definition boundary_lost (pte va : Z) : bool :=
  if pte =? 0 then PDX va =? 1023
  else (PTX va =? 1023) && Z.odd (PDX va).

(** The characters of a C string: those before the first NUL. *)
Fixpoint c_chars (s : string) : list ascii :=
  match s with
  | EmptyString => []
  | String c rest => if is_nul c then [] else c :: c_chars rest
  end.

(** The value of a numeral, most significant digit first. *)
Fixpoint numeral_value (base : Z) (digits : list Z) : Z :=
  match digits with
  | [] => 0
  | d :: rest => d * base ^ Z.of_nat (List.length rest) + numeral_value base rest
  end.

(** The digit dec2uint adds for one character. *)
Definition dec_digit (c : ascii) : Z :=
  if (char_val "0" <=? char_val c) && (char_val c <=? char_val "9") then
    char_val c - char_val "0"
  else 0.

(** The character for a digit below 16, lowercase, and the numeral of [n]
    written with [width] digits in base 16 or 10, as "%08x" writes an address
    with [width = 8]. *)
Definition digit_char (d : Z) : ascii :=
  ascii_of_N (Z.to_N (if d <? 10 then char_val "0" + d
                      else char_val "a" + (d - 10))).

Fixpoint numeral (base : Z) (width : nat) (n : Z) : string :=
  match width with
  | O => EmptyString
  | S w => numeral base w (n / base) ++ String (digit_char (n mod base)) ""
  end.

(** A command line laid out as words with a gap before each and a tail
    after the last. *)
Fixpoint spaced (words : list (string * string)) (tail : string) : string :=
  match words with
  | [] => tail
  | (gap, word) :: rest => gap ++ word ++ spaced rest tail
  end.

(** Only blanks, tabs, carriage returns and newlines. *)
Fixpoint blank (s : string) : bool :=
  match s with
  | EmptyString => true
  | String c rest => negb (is_nul c) && is_whitespace c && blank rest
  end.

(** A word: no NUL and no whitespace in it, and not empty. *)
Fixpoint solid (s : string) : bool :=
  match s with
  | EmptyString => true
  | String c rest => negb (is_nul c) && negb (is_whitespace c) && solid rest
  end.

Definition word (s : string) : bool :=
  negb (s =? "")%string && solid s.

(** Where a word may stop: at the end of the buffer or before whitespace. *)
Definition word_stop (s : string) : bool :=
  match s with
  | EmptyString => true
  | String c _ => is_nul c || is_whitespace c
  end.

(** Every gap is blank, every gap but the first is not empty, every word is
    a word. *)
Fixpoint well_spaced (first : bool) (words : list (string * string)) : bool :=
  match words with
  | [] => true
  | (gap, w) :: rest =>
      blank gap && (first || negb (gap =? "")%string) && word w
      && well_spaced false rest
  end.

(** Words joined by single blanks into a command line. *)
Fixpoint join (words : list string) : string :=
  match words with
  | [] => EmptyString
  | [w] => w
  | w :: rest => w ++ String " " (join rest)
  end.


(** ** Sample states

    Small concrete kernels on which the statements below are exercised. *)

(** A resolver that places every address five bytes into a function
    [test_backtrace] of kern/init.c. *)
Definition sample_resolver (eip : Z) : Eipdebuginfo :=
  mkEipdebuginfo "kern/init.c" 24 "test_backtrace" 14 (eip - 5) 1.

(** A stack with two frames, at 0xf010ff18 and 0xf010ff38; the second one's
    saved base is zero.  Every other word holds its own address. *)
Definition sample_stack : memory :=
  fun a =>
    if a =? 0xf010ff18 then 0xf010ff38
    else if a =? 0xf010ff38 then 0
    else a.

(** Memory holding the listed words and zero elsewhere. *)
Fixpoint mem_of (cells : list (Z * Z)) : memory :=
  fun a =>
    match cells with
    | [] => 0
    | (p, v) :: rest => if a =? p then v else mem_of rest a
    end.

(** A kernel whose page directory sits at 0xf011a000 (physical 0x11a000):
    - entry 1 points at a table with no present entry;
    - entry 957 maps the directory onto itself (the read-only self-map);
    - entry 959 points at a table whose last entry maps the top page of the
      kernel stack, 0xeffff000;
    - entry 960 points at a table mapping 0xf0001000 to physical 0x1000;
    - entry 961 points at a table whose last entry maps 0xf07ff000. *)
Definition sample_pgdir : Z := 0xf011a000.

Definition sample_kernel : memory :=
  mem_of [ (0xf011a004, 0x0011e003);
           (0xf011aef4, 0x0011a005);
           (0xf011aefc, 0x0011d003); (0xf011dffc, 0x00117003);
           (0xf011af00, 0x0011b003); (0xf011b004, 0x00001003);
           (0xf011af04, 0x0011c003); (0xf011cffc, 0x007ff003) ].

(** The scenario of the specification: one page mapped at virtual 0x1000 to
    physical 0x5000, writable and user-accessible, and nothing else mapped
    below 4MB. *)
Definition scenario_kernel : memory :=
  mem_of [ (0xf011a000, 0x0011f007); (0xf011f004, 0x00005007) ].

(** * Properties *)

(** ** Word arithmetic *)

Lemma wrap32_range z : 0 <= wrap32 z < 2 ^ 32.
Proof. unfold wrap32. apply Z.mod_pos_bound. lia. Qed.

Lemma wrap32_small z : 0 <= z < 2 ^ 32 -> wrap32 z = z.
Proof. intros H. unfold wrap32. apply Z.mod_small. exact H. Qed.

Lemma load_range m p : 0 <= load m p < 2 ^ 32.
Proof. apply wrap32_range. Qed.

Lemma wrap32_add_l a b : wrap32 (wrap32 a + b) = wrap32 (a + b).
Proof. unfold wrap32. apply Zplus_mod_idemp_l. Qed.

(** ** mon_backtrace *)

Section Backtrace.

Variable debuginfo_eip : Z -> Eipdebuginfo.

Lemma backtrace_frame_report m ebp :
  backtrace_frame debuginfo_eip m ebp = frame_report debuginfo_eip m ebp.
Proof.
  unfold backtrace_frame, frame_report. cbn [map].
  rewrite !wrap32_add_l.
  repeat match goal with
         | |- context [wrap32 (?e + 4 + 4 * ?k)] =>
             replace (e + 4 + 4 * k) with (e + 4 * (k + 1)) by lia
         end.
  reflexivity.
Qed.

Lemma backtrace_loop_chain m ebp chain :
  frame_chain m ebp chain ->
  forall fuel, (length chain < fuel)%nat ->
  backtrace_loop debuginfo_eip fuel m ebp
  = Some (flat_map (backtrace_frame debuginfo_eip m) chain).
Proof.
  induction 1 as [|ebp rest Hnz Hrest IH]; intros fuel Hfuel.
  - destruct fuel as [|fuel]; [inversion Hfuel|]. reflexivity.
  - destruct fuel as [|fuel]; [inversion Hfuel|].
    cbn [backtrace_loop flat_map].
    apply Z.eqb_neq in Hnz. rewrite Hnz.
    rewrite IH by (cbn [length] in Hfuel; lia).
    reflexivity.
Qed.

Lemma frame_bases_report m chain :
  frame_bases (flat_map (backtrace_frame debuginfo_eip m) chain) = chain.
Proof.
  induction chain as [|ebp rest IH]; [reflexivity|].
  cbn [flat_map]. unfold frame_bases in *.
  rewrite flat_map_app, IH. reflexivity.
Qed.

End Backtrace.

(** C6: for a frame chain of finitely many non-zero frame-base links ending
    in a zero link, the backtrace terminates and prints exactly one frame per
    non-zero link, in order; when the starting frame base is zero it prints no
    frame at all. *)
Theorem backtrace_one_frame_per_link
  (debuginfo_eip : Z -> Eipdebuginfo) (m : memory) (ebp : Z) (chain : list Z)
  (fuel : nat) :
  frame_chain m ebp chain ->
  (length chain < fuel)%nat ->
  (exists out,
      mon_backtrace debuginfo_eip fuel m ebp = Some out
      /\ frame_bases out = chain)
  /\ mon_backtrace debuginfo_eip fuel m 0 = Some [BacktraceHeader].
Proof.
  intros Hchain Hfuel. split.
  - exists (BacktraceHeader :: flat_map (backtrace_frame debuginfo_eip m) chain).
    unfold mon_backtrace.
    rewrite (backtrace_loop_chain debuginfo_eip m ebp chain Hchain fuel Hfuel).
    split; [reflexivity|].
    apply (frame_bases_report debuginfo_eip m chain).
  - destruct fuel as [|fuel]; [inversion Hfuel|]. reflexivity.
Qed.

Lemma backtrace_one_frame_per_link_witness :
  (exists out,
      mon_backtrace sample_resolver 3 sample_stack 0xf010ff18 = Some out
      /\ frame_bases out = [0xf010ff18; 0xf010ff38])
  /\ mon_backtrace sample_resolver 3 sample_stack 0 = Some [BacktraceHeader].
Proof.
  apply (backtrace_one_frame_per_link sample_resolver sample_stack
           0xf010ff18 [0xf010ff18; 0xf010ff38] 3).
  - apply chain_link; [discriminate|].
    change (load sample_stack 0xf010ff18) with 0xf010ff38.
    apply chain_link; [discriminate|].
    exact (chain_end sample_stack).
  - simpl. lia.
Defined.

(** C8: for every frame of the chain the backtrace reports the return
    address read one word above the frame base, the five words immediately
    above the return address as arguments, and as symbol offset the return
    address minus the start address of the function the resolver returned. *)
Theorem backtrace_reports_each_frame
  (debuginfo_eip : Z -> Eipdebuginfo) (m : memory) (ebp : Z) (chain : list Z)
  (fuel : nat) :
  frame_chain m ebp chain ->
  (length chain < fuel)%nat ->
  mon_backtrace debuginfo_eip fuel m ebp
  = Some (BacktraceHeader :: flat_map (frame_report debuginfo_eip m) chain).
Proof.
  intros Hchain Hfuel. unfold mon_backtrace.
  rewrite (backtrace_loop_chain debuginfo_eip m ebp chain Hchain fuel Hfuel).
  do 2 f_equal. apply flat_map_ext. intros a.
  apply backtrace_frame_report.
Qed.

Lemma backtrace_reports_each_frame_witness :
  mon_backtrace sample_resolver 3 sample_stack 0xf010ff18
  = Some (BacktraceHeader
            :: flat_map (frame_report sample_resolver sample_stack)
                 [0xf010ff18; 0xf010ff38]).
Proof.
  apply (backtrace_reports_each_frame sample_resolver sample_stack
           0xf010ff18 [0xf010ff18; 0xf010ff38] 3).
  - apply chain_link; [discriminate|].
    change (load sample_stack 0xf010ff18) with 0xf010ff38.
    apply chain_link; [discriminate|].
    exact (chain_end sample_stack).
  - simpl. lia.
Defined.

(** ** mon_setperm *)

Lemma wrap32_land_ones z : wrap32 z = Z.land z (Z.ones 32).
Proof. unfold wrap32. rewrite Z.land_ones by lia. reflexivity. Qed.

Lemma testbit_high z i : 0 <= z < 2 ^ 32 -> 32 <= i -> Z.testbit z i = false.
Proof.
  intros Hz Hi. rewrite <- (Z.mod_small z (2 ^ 32)) by exact Hz.
  apply Z.mod_pow2_bits_high. lia.
Qed.

Section PermissionField.

(** The word mon_setperm writes over an entry [old] for the argument [perm]. *)
Local Abbreviation rewritten old perm :=
  (Z.lor (Z.lor (Z.land old (Z.lnot 0xfff)) (Z.land perm 0xfff)) PTE_P).

Local Ltac masks :=
  unfold PTE_ADDR, PTE_P;
  change 1 with (Z.ones 1);
  change 0xFFF with (Z.ones 12);
  change 0xffe with (Z.land (Z.ones 12) (Z.lnot (Z.ones 1))).

Lemma rewritten_fits old perm :
  0 <= old < 2 ^ 32 -> wrap32 (rewritten old perm) = rewritten old perm.
Proof.
  intros Hold. rewrite wrap32_land_ones. masks.
  Z.bitblast. all: try (rewrite (testbit_high old) by lia; btauto).
Qed.

Lemma rewritten_base old perm :
  PTE_ADDR (rewritten old perm) = PTE_ADDR old.
Proof. masks. Z.bitblast. Qed.

Lemma rewritten_field old perm :
  Z.land (rewritten old perm) 0xfff = Z.lor (Z.land perm 0xfff) PTE_P.
Proof. masks. Z.bitblast. Qed.

Lemma rewritten_present old perm :
  Z.land (rewritten old perm) PTE_P = PTE_P.
Proof. masks. Z.bitblast. Qed.

Lemma rewritten_flags old perm :
  Z.land (rewritten old perm) 0xffe = Z.land perm 0xffe.
Proof. masks. Z.bitblast. Qed.

End PermissionField.

Lemma present_bit x : Z.land x PTE_P <> 0 -> Z.land x PTE_P = PTE_P.
Proof.
  unfold PTE_P. intros H.
  assert (E : Z.land x 1 = x mod 2) by (apply (Z.land_ones x 1); lia).
  pose proof (Z.mod_pos_bound x 2 ltac:(lia)). lia.
Qed.

Lemma load_store_same m p v : load (store m p v) p = wrap32 v.
Proof.
  unfold load, store. rewrite Z.eqb_refl.
  unfold wrap32. apply Z.mod_mod. lia.
Qed.

Lemma load_store_other m p v a : a <> p -> load (store m p v) a = load m a.
Proof.
  intros H. unfold load, store. apply Z.eqb_neq in H. rewrite H. reflexivity.
Qed.

(** The two-level walk reads of a directory entry only its present bit and
    its base: a store that keeps both leaves every walk where it was, also
    when the word stored to is itself a directory entry. *)
Lemma two_level_walk_store KADDR m pgdir p v va :
  Z.land (wrap32 v) PTE_P = Z.land (load m p) PTE_P ->
  PTE_ADDR (wrap32 v) = PTE_ADDR (load m p) ->
  two_level_walk KADDR (store m p v) pgdir va = two_level_walk KADDR m pgdir va.
Proof.
  intros Hp Hbase. unfold two_level_walk.
  destruct (Z.eq_dec (wrap32 (pgdir + 4 * PDX va)) p) as [->|Hne].
  - rewrite load_store_same, Hp, Hbase. reflexivity.
  - rewrite load_store_other by exact Hne. reflexivity.
Qed.

(** C4: when the walk finds a present entry for [va], then right after
    set_permissions the walk finds the same entry, it is present (also when
    the supplied bits omit the present bit), its permission field holds the
    supplied bits masked to the field (with the present bit re-asserted), its
    physical base is what it was, and no other word of memory changed. *)
Theorem setperm_then_lookup (KADDR : Z -> Z) (kern_pgdir : Z) (m : memory)
  (va bits : Z) :
  let walk := two_level_walk KADDR in
  let pte := walk m kern_pgdir va in
  let m' := fst (mon_setperm walk kern_pgdir m va bits) in
  let pte' := walk m' kern_pgdir va in
  pte <> 0 ->
  Z.land (load m pte) PTE_P <> 0 ->
  pte' = pte
  /\ pte_present m' pte' = true
  /\ Z.land (load m' pte') 0xfff = Z.lor (Z.land bits 0xfff) PTE_P
  /\ Z.land (load m' pte') 0xffe = Z.land bits 0xffe
  /\ PTE_ADDR (load m' pte') = PTE_ADDR (load m pte)
  /\ (forall p, p <> pte -> load m' p = load m p)
  /\ snd (mon_setperm walk kern_pgdir m va bits)
     = [PermSet (Z.land bits 0xfff) va].
Proof.
  intros walk pte m' pte' Hnz Hp.
  assert (Hpres : pte_present m pte = true).
  { unfold pte_present. apply Z.eqb_neq in Hnz, Hp. rewrite Hnz, Hp.
    reflexivity. }
  assert (Hset : mon_setperm walk kern_pgdir m va bits
                 = (store m pte
                      (Z.lor (Z.lor (Z.land (load m pte) (Z.lnot 0xfff))
                                (Z.land bits 0xfff)) PTE_P),
                    [PermSet (Z.land bits 0xfff) va])).
  { unfold mon_setperm. fold pte. rewrite Hpres. reflexivity. }
  assert (Hm' : m' = store m pte
                  (Z.lor (Z.lor (Z.land (load m pte) (Z.lnot 0xfff))
                            (Z.land bits 0xfff)) PTE_P)).
  { unfold m'. rewrite Hset. reflexivity. }
  pose proof (load_range m pte) as Hold.
  assert (Hwalk : pte' = pte).
  { unfold pte', walk. rewrite Hm'. apply two_level_walk_store.
    - rewrite rewritten_fits by exact Hold.
      rewrite rewritten_present. symmetry. apply present_bit. exact Hp.
    - rewrite rewritten_fits by exact Hold. apply rewritten_base. }
  assert (Hnew : load m' pte'
                 = Z.lor (Z.lor (Z.land (load m pte) (Z.lnot 0xfff))
                            (Z.land bits 0xfff)) PTE_P).
  { rewrite Hwalk, Hm', load_store_same. apply rewritten_fits. exact Hold. }
  split; [exact Hwalk|].
  split.
  { unfold pte_present. rewrite Hnew, rewritten_present, Hwalk.
    apply Z.eqb_neq in Hnz. rewrite Hnz. reflexivity. }
  split; [rewrite Hnew; apply rewritten_field|].
  split; [rewrite Hnew; apply rewritten_flags|].
  split; [rewrite Hnew; apply rewritten_base|].
  split.
  { intros p Hne. rewrite Hm'. apply load_store_other. exact Hne. }
  rewrite Hset. reflexivity.
Qed.

Lemma setperm_then_lookup_witness :
  let walk := two_level_walk kaddr in
  let pte := walk sample_kernel sample_pgdir 0xf0001000 in
  let m' := fst (mon_setperm walk sample_pgdir sample_kernel 0xf0001000 0x6) in
  let pte' := walk m' sample_pgdir 0xf0001000 in
  pte' = pte
  /\ pte_present m' pte' = true
  /\ Z.land (load m' pte') 0xfff = Z.lor (Z.land 0x6 0xfff) PTE_P
  /\ Z.land (load m' pte') 0xffe = Z.land 0x6 0xffe
  /\ PTE_ADDR (load m' pte') = PTE_ADDR (load sample_kernel pte)
  /\ (forall p, p <> pte -> load m' p = load sample_kernel p)
  /\ snd (mon_setperm walk sample_pgdir sample_kernel 0xf0001000 0x6)
     = [PermSet (Z.land 0x6 0xfff) 0xf0001000].
Proof.
  apply (setperm_then_lookup kaddr sample_pgdir sample_kernel 0xf0001000 0x6).
  - vm_compute. discriminate.
  - vm_compute. discriminate.
Defined.

(** C5: when the walk finds no entry for [va], or an entry without the
    present bit, set_permissions reports that there is no mapping and returns
    the very memory it was given. *)
Theorem setperm_absent_untouched (pgdir_walk : memory -> Z -> Z -> Z)
  (kern_pgdir : Z) (m : memory) (va bits : Z) :
  pgdir_walk m kern_pgdir va = 0
  \/ Z.land (load m (pgdir_walk m kern_pgdir va)) PTE_P = 0 ->
  mon_setperm pgdir_walk kern_pgdir m va bits = (m, [PermNoMapping va]).
Proof.
  intros Habsent. unfold mon_setperm, pte_present.
  destruct Habsent as [H|H]; rewrite H.
  - reflexivity.
  - rewrite Z.eqb_refl, andb_false_r. reflexivity.
Qed.

Lemma setperm_absent_untouched_witness :
  mon_setperm (two_level_walk kaddr) sample_pgdir sample_kernel 0x007ff000 0x7
  = (sample_kernel, [PermNoMapping 0x007ff000]).
Proof.
  apply (setperm_absent_untouched (two_level_walk kaddr) sample_pgdir
           sample_kernel 0x007ff000 0x7).
  right. vm_compute. reflexivity.
Defined.

(** ** Counting loops *)

Section Stride.

Variable step : Z.
Hypothesis step_pos : 0 < step.

Lemma stride_count_done lo hi : hi <= lo -> stride_count step lo hi = 0%nat.
Proof.
  intros H. unfold stride_count.
  assert ((hi - lo + (step - 1)) / step <= 0).
  { apply Z.lt_succ_r. apply Z.div_lt_upper_bound; lia. }
  lia.
Qed.

Lemma stride_count_more lo hi :
  lo < hi -> stride_count step lo hi = S (stride_count step (lo + step) hi).
Proof.
  intros H. unfold stride_count.
  replace (hi - lo + (step - 1)) with ((hi - (lo + step) + (step - 1)) + 1 * step)
    by lia.
  rewrite Z.div_add by lia.
  assert (0 <= (hi - (lo + step) + (step - 1)) / step).
  { apply Z.div_pos; lia. }
  rewrite Z2Nat.inj_add by lia. rewrite Nat.add_comm. reflexivity.
Qed.

Lemma stride_more lo n : stride step lo (S n) = lo :: stride step (lo + step) n.
Proof.
  unfold stride. rewrite <- cons_seq. cbn [map]. f_equal.
  - cbn. lia.
  - rewrite <- seq_shift, map_map. apply map_ext. intros k. lia.
Qed.

Lemma stride_count_aligned lo hi :
  lo <= hi -> (hi - lo) mod step = 0 ->
  lo + step * Z.of_nat (stride_count step lo hi) = hi.
Proof.
  intros Hle Hmod. unfold stride_count.
  apply Z.mod_divide in Hmod; [|lia]. destruct Hmod as [k Hk].
  replace (hi - lo + (step - 1)) with ((step - 1) + k * step) by lia.
  rewrite Z.div_add by lia. rewrite Z.div_small by lia.
  assert (0 <= k) by nia.
  rewrite Z2Nat.id by lia. nia.
Qed.

End Stride.

(** The inner loop of the dumps: when the bound leaves room for one more
    step below 2^32, it prints one line per unit below the bound and leaves
    the loop variable on the first unit not below it. *)
Lemma for_units_run body next_addr :
  next_addr <= 2 ^ 32 - 4 ->
  forall (fuel : nat) a,
    0 <= a ->
    (stride_count UNIT_LEN a next_addr < fuel)%nat ->
    for_units fuel body a next_addr
    = Some (map body (units a next_addr),
            a + UNIT_LEN * Z.of_nat (stride_count UNIT_LEN a next_addr)).
Proof.
  intros Hnext. unfold units.
  induction fuel as [|fuel IH]; intros a Ha Hfuel; [inversion Hfuel|].
  cbn [for_units]. destruct (Z.ltb_spec a next_addr) as [Hlt|Hge].
  - rewrite (stride_count_more UNIT_LEN ltac:(reflexivity)) in * by exact Hlt.
    rewrite wrap32_small by (unfold UNIT_LEN; lia).
    rewrite IH by (unfold UNIT_LEN in *; lia).
    rewrite stride_more. cbn [map]. do 2 f_equal. lia.
  - rewrite (stride_count_done UNIT_LEN ltac:(reflexivity)) by exact Hge.
    cbn. f_equal. f_equal. lia.
Qed.

(** ** dump_physmem *)

Lemma MIN_ADDR_min x y : MIN_ADDR x y = Z.min x y.
Proof. unfold MIN_ADDR. destruct (Z.leb_spec x y); lia. Qed.

(** C3, as the code has it: a physical-mode dump whose requested end
    (in 32 bits) exceeds the installed memory is refused, not clamped: it
    prints the out-of-memory line and no record at all.  Any other request
    yields one record per 4-byte unit from the aligned start up to the least
    of the requested end and the 256MB the kernel maps above KERNBASE.  The
    command returns normally either way. *)
Theorem physical_dump_refuses_or_dumps
  (pgdir_walk : memory -> Z -> Z -> Z) (kern_pgdir npages : Z)
  (KADDR : Z -> Z) (fuel : nat) (m : memory) (start_addr n : Z) :
  let start_pa := ROUNDDOWN start_addr UNIT_LEN in
  let end_pa := wrap32 (start_pa + wrap32 (n * UNIT_LEN)) in
  let ceiling := MAX_MEM - KERNBASE + 1 in
  (stride_count UNIT_LEN start_pa (Z.min end_pa ceiling) < fuel)%nat ->
  mon_dumpmemory pgdir_walk kern_pgdir npages KADDR fuel m true start_addr n
  = Some (if end_pa >? wrap32 (npages * PGSIZE)
          then [RangeOutOfMemory]
          else map (fun pa => PhysUnit pa (load m (KADDR pa)))
                   (units start_pa (Z.min end_pa ceiling))).
Proof.
  intros start_pa end_pa ceiling Hfuel.
  unfold mon_dumpmemory, dump_physmem. fold start_pa. fold end_pa.
  destruct (end_pa >? wrap32 (npages * PGSIZE)); [reflexivity|].
  change (wrap32 (MAX_MEM - KERNBASE + 1)) with ceiling.
  rewrite MIN_ADDR_min.
  rewrite for_units_run.
  - reflexivity.
  - unfold ceiling, MAX_MEM, KERNBASE. lia.
  - apply wrap32_range.
  - exact Hfuel.
Qed.

Lemma physical_dump_refuses_or_dumps_witness :
  mon_dumpmemory (two_level_walk kaddr) sample_pgdir 16 kaddr 8 sample_kernel
    true 0xfff2 3
  = Some (if wrap32 (ROUNDDOWN 0xfff2 UNIT_LEN + wrap32 (3 * UNIT_LEN))
             >? wrap32 (16 * PGSIZE)
          then [RangeOutOfMemory]
          else map (fun pa => PhysUnit pa (load sample_kernel (kaddr pa)))
                   (units (ROUNDDOWN 0xfff2 UNIT_LEN)
                      (Z.min
                         (wrap32 (ROUNDDOWN 0xfff2 UNIT_LEN
                                  + wrap32 (3 * UNIT_LEN)))
                         (MAX_MEM - KERNBASE + 1)))).
Proof.
  apply (physical_dump_refuses_or_dumps (two_level_walk kaddr) sample_pgdir 16
           kaddr 8 sample_kernel 0xfff2 3).
  vm_compute. lia.
Defined.

(** C3, refuted as stated: with 32768 pages (128MB) installed, a dump of
    four units from 0x07fffff8 asks for two units below the end of memory and
    two above; clamping would yield the records at 0x07fffff8 and 0x07fffffc,
    the code yields none. *)
Lemma physical_dump_not_clamped :
  clamped_units 32768 0x07fffff8 (4 * UNIT_LEN) = [0x07fffff8; 0x07fffffc]
  /\ mon_dumpmemory (two_level_walk kaddr) sample_pgdir 32768 kaddr 8
       sample_kernel true 0x07fffff8 4
     = Some [RangeOutOfMemory]
  /\ option_map dump_addresses
       (mon_dumpmemory (two_level_walk kaddr) sample_pgdir 32768 kaddr 8
          sample_kernel true 0x07fffff8 4)
     <> Some (clamped_units 32768 0x07fffff8 (4 * UNIT_LEN)).
Proof.
  split; [reflexivity|]. split; [reflexivity|].
  vm_compute. discriminate.
Qed.

(** ** print_pte and mon_showmapping *)

(** C9, as the code has it: an absent entry, whether the walk returned NULL
    (no directory entry) or an entry without the present bit (no table
    entry), is dumped as the same no-mapping record, and is shown by
    print_pte as "No Mapping" unless the walk returned the address of the
    kernel page directory itself, which print_pte shows as the directory's
    own physical address with both flags clear. *)
Theorem absent_entries_surface_alike
  (pgdir_walk : memory -> Z -> Z -> Z) (kern_pgdir : Z) (PADDR : Z -> Z)
  (m : memory) (va end_va : Z) :
  let pte := pgdir_walk m kern_pgdir va in
  pte_present m pte = false ->
  fst (virt_run pgdir_walk kern_pgdir m va end_va) = VirtUnmapped
  /\ (pte <> kern_pgdir -> print_pte kern_pgdir PADDR m pte = PteNoMapping)
  /\ (pte = kern_pgdir ->
      print_pte kern_pgdir PADDR m pte = PtePA (PADDR kern_pgdir) false false).
Proof.
  intros pte Habsent. split; [|split].
  - unfold virt_run. fold pte. unfold pte_present in Habsent.
    destruct (pte =? 0); [reflexivity|].
    destruct (Z.land (load m pte) PTE_P =? 0); [reflexivity|discriminate].
  - intros Hne. unfold print_pte. rewrite Habsent.
    apply Z.eqb_neq in Hne. rewrite Hne. reflexivity.
  - intros He. unfold print_pte. rewrite Habsent.
    apply Z.eqb_eq in He. rewrite He. reflexivity.
Qed.

Lemma absent_entries_surface_alike_witness :
  fst (virt_run (two_level_walk kaddr) sample_pgdir sample_kernel
         0x007ff000 0x00800000) = VirtUnmapped
  /\ (two_level_walk kaddr sample_kernel sample_pgdir 0x007ff000
      <> sample_pgdir ->
      print_pte sample_pgdir paddr sample_kernel
        (two_level_walk kaddr sample_kernel sample_pgdir 0x007ff000)
      = PteNoMapping)
  /\ (two_level_walk kaddr sample_kernel sample_pgdir 0x007ff000
      = sample_pgdir ->
      print_pte sample_pgdir paddr sample_kernel
        (two_level_walk kaddr sample_kernel sample_pgdir 0x007ff000)
      = PtePA (paddr sample_pgdir) false false).
Proof.
  apply (absent_entries_surface_alike (two_level_walk kaddr) sample_pgdir paddr
           sample_kernel 0x007ff000 0x00800000).
  vm_compute. reflexivity.
Defined.

(** C9, refuted as stated: in the sample kernel the directory has no entry
    for address 0, and through the self-map the entry for 0xef400000 is the
    directory's own first word, which is not present.  Both are absent, yet
    show-mapping prints "No Mapping" for the first and a physical address
    for the second. *)
Lemma absent_entries_shown_differently :
  two_level_walk kaddr sample_kernel sample_pgdir 0 = 0
  /\ pte_present sample_kernel
       (two_level_walk kaddr sample_kernel sample_pgdir 0xef400000) = false
  /\ mon_showmapping (two_level_walk kaddr) sample_pgdir paddr 2 sample_kernel
       0 0
     = Some [ShowRange 0 0; ShowVA 0; PteNoMapping]
  /\ mon_showmapping (two_level_walk kaddr) sample_pgdir paddr 2 sample_kernel
       0xef400000 0xef400000
     = Some [ShowRange 0xef400000 0xef400000; ShowVA 0xef400000;
             PtePA 0x0011a000 false false]
  /\ print_pte sample_pgdir paddr sample_kernel
       (two_level_walk kaddr sample_kernel sample_pgdir 0xef400000)
     <> print_pte sample_pgdir paddr sample_kernel
          (two_level_walk kaddr sample_kernel sample_pgdir 0).
Proof.
  split; [reflexivity|]. split; [reflexivity|].
  split; [reflexivity|]. split; [reflexivity|].
  vm_compute. discriminate.
Qed.

(** One pass of show-mapping's loop over the pages from [lo] through [hi]
    when the last of them is not the last page of the address space. *)
Lemma showmapping_loop_run
  (pgdir_walk : memory -> Z -> Z -> Z) (kern_pgdir : Z) (PADDR : Z -> Z)
  (m : memory) (hi : Z) :
  hi < 2 ^ 32 - PGSIZE ->
  forall (fuel : nat) lo,
    0 <= lo ->
    (stride_count PGSIZE lo (hi + 1) < fuel)%nat ->
    showmapping_loop pgdir_walk kern_pgdir PADDR fuel m lo hi
    = Some (flat_map
              (fun va => [ShowVA va;
                          print_pte kern_pgdir PADDR m
                            (pgdir_walk m kern_pgdir va)])
              (pages lo hi)).
Proof.
  intros Hhi. unfold pages.
  induction fuel as [|fuel IH]; intros lo Hlo Hfuel; [inversion Hfuel|].
  cbn [showmapping_loop]. destruct (Z.leb_spec lo hi) as [Hle|Hgt].
  - rewrite (stride_count_more PGSIZE ltac:(reflexivity)) in * by lia.
    rewrite wrap32_small by (unfold PGSIZE in *; lia).
    rewrite IH by (unfold PGSIZE in *; lia).
    rewrite stride_more. reflexivity.
  - rewrite (stride_count_done PGSIZE ltac:(reflexivity)) by lia.
    reflexivity.
Qed.

Lemma ROUNDDOWN_aligned a n :
  0 < n -> 0 <= a < 2 ^ 32 ->
  ROUNDDOWN a n = n * (a / n) /\ 0 <= ROUNDDOWN a n <= a.
Proof.
  intros Hn Ha. unfold ROUNDDOWN.
  pose proof (Z.mod_pos_bound a n Hn).
  pose proof (Z.mod_le a n ltac:(lia) Hn).
  pose proof (Z.div_mod a n ltac:(lia)).
  rewrite wrap32_small by lia. lia.
Qed.

(** Show-mapping away from the top of the address space: one record per
    page from the page of [start_addr] through the page of [end_addr]. *)
Lemma showmapping_closed_range
  (pgdir_walk : memory -> Z -> Z -> Z) (kern_pgdir : Z) (PADDR : Z -> Z)
  (m : memory) (fuel : nat) (start_addr end_addr : Z) :
  0 <= start_addr < 2 ^ 32 ->
  0 <= end_addr < 2 ^ 32 - PGSIZE ->
  (stride_count PGSIZE (ROUNDDOWN start_addr PGSIZE)
     (ROUNDDOWN end_addr PGSIZE + 1) < fuel)%nat ->
  mon_showmapping pgdir_walk kern_pgdir PADDR fuel m start_addr end_addr
  = Some (ShowRange (ROUNDDOWN start_addr PGSIZE) (ROUNDDOWN end_addr PGSIZE)
            :: flat_map
                 (fun va => [ShowVA va;
                             print_pte kern_pgdir PADDR m
                               (pgdir_walk m kern_pgdir va)])
                 (pages (ROUNDDOWN start_addr PGSIZE)
                        (ROUNDDOWN end_addr PGSIZE))).
Proof.
  intros Hs He Hfuel. unfold mon_showmapping.
  destruct (ROUNDDOWN_aligned start_addr PGSIZE ltac:(reflexivity) Hs)
    as [_ Hs'].
  destruct (ROUNDDOWN_aligned end_addr PGSIZE ltac:(reflexivity)
              ltac:(unfold PGSIZE in *; lia)) as [_ He'].
  rewrite showmapping_loop_run; [reflexivity|lia|lia|exact Hfuel].
Qed.

(** On the last page of the address space the loop variable wraps to zero
    instead of passing [end_addr], so the loop never ends. *)
Lemma showmapping_loop_wraps
  (pgdir_walk : memory -> Z -> Z -> Z) (kern_pgdir : Z) (PADDR : Z -> Z)
  (m : memory) (fuel : nat) :
  forall lo, 0 <= lo < 2 ^ 32 -> lo mod PGSIZE = 0 ->
  showmapping_loop pgdir_walk kern_pgdir PADDR fuel m lo 0xfffff000 = None.
Proof.
  induction fuel as [|fuel IH]; intros lo Hlo Hal; [reflexivity|].
  cbn [showmapping_loop].
  apply Z.mod_divide in Hal; [|discriminate]. destruct Hal as [k Hk].
  unfold PGSIZE in *.
  assert (Hle : (lo <=? 0xfffff000) = true) by (apply Z.leb_le; lia).
  rewrite Hle.
  assert (Hnext : 0 <= wrap32 (lo + 4096) < 2 ^ 32 /\
                  wrap32 (lo + 4096) mod 4096 = 0).
  { split; [apply wrap32_range|].
    destruct (Z.eq_dec lo 0xfffff000) as [->|Hne]; [reflexivity|].
    rewrite wrap32_small by lia.
    subst lo. replace (k * 4096 + 4096) with ((k + 1) * 4096) by lia.
    apply Z.mod_mul. discriminate. }
  rewrite IH by tauto. reflexivity.
Qed.

(** Whenever the end address lies in the last page, whatever the start. *)
Lemma showmapping_last_page_loops
  (pgdir_walk : memory -> Z -> Z -> Z) (kern_pgdir : Z) (PADDR : Z -> Z)
  (m : memory) (fuel : nat) (start_addr end_addr : Z) :
  0 <= start_addr < 2 ^ 32 -> 0xfffff000 <= end_addr < 2 ^ 32 ->
  mon_showmapping pgdir_walk kern_pgdir PADDR fuel m start_addr end_addr
  = None.
Proof.
  intros Hs He. unfold mon_showmapping.
  destruct (ROUNDDOWN_aligned start_addr PGSIZE ltac:(reflexivity) Hs)
    as [Es Hs'].
  destruct (ROUNDDOWN_aligned end_addr PGSIZE ltac:(reflexivity) ltac:(lia))
    as [Ee He'].
  assert (E : ROUNDDOWN end_addr PGSIZE = 0xfffff000).
  { rewrite Ee. unfold PGSIZE.
    assert (end_addr / 4096 = 1048575); [|lia].
    symmetry. apply Z.div_unique with (r := end_addr - 0xfffff000); lia. }
  rewrite E, showmapping_loop_wraps; [reflexivity|lia|].
  rewrite Es. rewrite Z.mul_comm. apply Z.mod_mul. discriminate.
Qed.

(** C10 at the top of the address space: asked for the single page
    0xfffff000, show-mapping does not stop after one record; whatever the
    page tables hold, no amount of fuel lets it return. *)
Theorem showmapping_last_page_never_returns
  (pgdir_walk : memory -> Z -> Z -> Z) (kern_pgdir : Z) (PADDR : Z -> Z)
  (m : memory) (fuel : nat) :
  mon_showmapping pgdir_walk kern_pgdir PADDR fuel m 0xfffff000 0xfffff000
  = None.
Proof.
  unfold mon_showmapping.
  change (ROUNDDOWN 0xfffff000 PGSIZE) with 0xfffff000.
  rewrite showmapping_loop_wraps; [reflexivity|lia|reflexivity].
Qed.

(** ** Address fields and run bounds *)

Lemma PDX_div va : 0 <= va < 2 ^ 32 -> PDX va = va / 2 ^ 22.
Proof.
  intros H. unfold PDX, PDXSHIFT. rewrite Z.shiftr_div_pow2 by lia.
  change 0x3FF with (Z.ones 10). rewrite Z.land_ones by lia.
  apply Z.mod_small. split.
  - apply Z.div_pos; lia.
  - apply Z.div_lt_upper_bound; lia.
Qed.

Lemma PTX_div va : PTX va = (va / 2 ^ 12) mod 2 ^ 10.
Proof.
  unfold PTX, PTXSHIFT. rewrite Z.shiftr_div_pow2 by lia.
  change 0x3FF with (Z.ones 10). rewrite Z.land_ones by lia. reflexivity.
Qed.

Lemma fields_add d t :
  0 <= t < 2 ^ 10 ->
  Z.lor (Z.shiftl d 22) (Z.shiftl t 12) = d * 2 ^ 22 + t * 2 ^ 12.
Proof.
  intros Ht. rewrite Z.or_to_plus.
  - rewrite !Z.shiftl_mul_pow2 by lia. reflexivity.
  - apply Z.bits_inj'. intros i Hi.
    rewrite Z.land_spec, !Z.shiftl_spec, Z.bits_0 by lia.
    destruct (Z.ltb_spec i 22) as [Hlo|Hhi].
    + rewrite (Z.testbit_neg_r d) by lia. reflexivity.
    + rewrite <- (Z.mod_small t (2 ^ 10)) by exact Ht.
      rewrite (Z.mod_pow2_bits_high t 10 (i - 12)) by lia.
      apply andb_false_r.
Qed.

Lemma PGADDR_fields d t :
  0 <= d -> 0 <= t < 2 ^ 10 -> d * 2 ^ 22 + t * 2 ^ 12 < 2 ^ 32 ->
  PGADDR d t 0 = d * 2 ^ 22 + t * 2 ^ 12.
Proof.
  intros Hd Ht Hlt. unfold PGADDR, PDXSHIFT, PTXSHIFT.
  rewrite Z.lor_0_r, fields_add by exact Ht.
  apply wrap32_small. lia.
Qed.

Lemma lor_one_even d : Z.odd d = false -> Z.lor d 1 = d + 1.
Proof.
  intros H. apply Z.or_to_plus.
  assert (E : Z.land d 1 = d mod 2) by (apply (Z.land_ones d 1); lia).
  rewrite E. rewrite Zmod_odd, H. reflexivity.
Qed.

Lemma lor_one_odd d : Z.odd d = true -> Z.lor d 1 = d.
Proof.
  intros H. apply Z.bits_inj'. intros i Hi. rewrite Z.lor_spec.
  destruct (Z.eq_dec i 0) as [->|Hne].
  - rewrite Z.bit0_odd, H. reflexivity.
  - assert (Z.testbit 1 i = false) as ->.
    { change 1 with (2 ^ 0). rewrite Z.pow2_bits_eqb by lia.
      apply Z.eqb_neq. lia. }
    apply orb_false_r.
Qed.

Lemma PGADDR_carry d :
  0 <= d < 2 ^ 10 ->
  PGADDR d 1024 0 = (if Z.odd d then d else d + 1) * 2 ^ 22 mod 2 ^ 32.
Proof.
  intros Hd. unfold PGADDR, PDXSHIFT, PTXSHIFT.
  rewrite Z.lor_0_r.
  change (Z.shiftl 1024 12) with (Z.shiftl 1 22).
  rewrite <- Z.shiftl_lor, Z.shiftl_mul_pow2 by lia.
  destruct (Z.odd d) eqn:E.
  - rewrite lor_one_odd by exact E. reflexivity.
  - rewrite lor_one_even by exact E. reflexivity.
Qed.

Lemma directory_bound va :
  0 <= va < 2 ^ 32 -> PDX va <> 1023 ->
  PGADDR (PDX va + 1) 0 0 = next_pde_boundary va.
Proof.
  intros Hva Hd. rewrite PDX_div in * by exact Hva.
  assert (0 <= va / 2 ^ 22 < 2 ^ 10).
  { split; [apply Z.div_pos; lia|apply Z.div_lt_upper_bound; lia]. }
  rewrite PGADDR_fields by lia. unfold next_pde_boundary. lia.
Qed.

Lemma page_split va :
  0 <= va < 2 ^ 32 -> va / 2 ^ 12 = PDX va * 2 ^ 10 + PTX va.
Proof.
  intros Hva. rewrite PDX_div by exact Hva. rewrite PTX_div.
  replace (va / 2 ^ 22) with (va / 2 ^ 12 / 2 ^ 10)
    by (rewrite Z.div_div by lia; reflexivity).
  pose proof (Z.div_mod (va / 2 ^ 12) (2 ^ 10) ltac:(lia)). lia.
Qed.

Lemma PDX_range va : 0 <= va < 2 ^ 32 -> 0 <= PDX va < 2 ^ 10.
Proof.
  intros Hva. rewrite PDX_div by exact Hva.
  split; [apply Z.div_pos; lia|apply Z.div_lt_upper_bound; lia].
Qed.

Lemma PTX_range va : 0 <= PTX va < 2 ^ 10.
Proof. rewrite PTX_div. apply Z.mod_pos_bound. lia. Qed.

Lemma table_bound va :
  0 <= va < 2 ^ 32 -> (PTX va =? 1023) && Z.odd (PDX va) = false ->
  PGADDR (PDX va) (PTX va + 1) 0 = next_page_boundary va.
Proof.
  intros Hva Hok. unfold next_page_boundary.
  rewrite (page_split va Hva).
  pose proof (PDX_range va Hva) as Hd. pose proof (PTX_range va) as Ht.
  destruct (Z.eqb_spec (PTX va) 1023) as [E|NE].
  - cbn [andb] in Hok. rewrite E. change (1023 + 1) with 1024.
    rewrite PGADDR_carry by exact Hd. rewrite Hok.
    assert (PDX va <> 1023).
    { intros E'. rewrite E' in Hok. discriminate. }
    rewrite Z.mod_small by lia. lia.
  - rewrite PGADDR_fields by lia. lia.
Qed.

Lemma directory_bound_lost va :
  0 <= va < 2 ^ 32 -> PDX va = 1023 -> PGADDR (PDX va + 1) 0 0 = 0.
Proof. intros _ E. rewrite E. reflexivity. Qed.

Lemma table_bound_lost va :
  0 <= va < 2 ^ 32 -> PTX va = 1023 -> Z.odd (PDX va) = true ->
  PGADDR (PDX va) (PTX va + 1) 0 = PDX va * 2 ^ 22
  /\ PDX va * 2 ^ 22 <= va.
Proof.
  intros Hva Et Eo. pose proof (PDX_range va Hva) as Hd.
  rewrite Et. change (1023 + 1) with 1024.
  rewrite PGADDR_carry by exact Hd. rewrite Eo.
  rewrite Z.mod_small by lia. split; [reflexivity|].
  rewrite PDX_div by exact Hva.
  pose proof (Z.div_mod va (2 ^ 22) ltac:(lia)).
  pose proof (Z.mod_pos_bound va (2 ^ 22) ltac:(lia)). lia.
Qed.

Lemma next_page_after va : va < next_page_boundary va.
Proof.
  unfold next_page_boundary.
  pose proof (Z.div_mod va (2 ^ 12) ltac:(lia)).
  pose proof (Z.mod_pos_bound va (2 ^ 12) ltac:(lia)). lia.
Qed.

Lemma next_pde_after va : va < next_pde_boundary va.
Proof.
  unfold next_pde_boundary.
  pose proof (Z.div_mod va (2 ^ 22) ltac:(lia)).
  pose proof (Z.mod_pos_bound va (2 ^ 22) ltac:(lia)). lia.
Qed.

Lemma next_page_aligned va : (UNIT_LEN | next_page_boundary va).
Proof.
  unfold next_page_boundary, UNIT_LEN.
  exists ((va / 2 ^ 12 + 1) * 2 ^ 10). lia.
Qed.

Lemma next_pde_aligned va : (UNIT_LEN | next_pde_boundary va).
Proof.
  unfold next_pde_boundary, UNIT_LEN.
  exists ((va / 2 ^ 22 + 1) * 2 ^ 20). lia.
Qed.

(** ** dump_virtmem *)

Lemma stride_app step lo n k :
  stride step lo (n + k)
  = stride step lo n ++ stride step (lo + step * Z.of_nat n) k.
Proof.
  revert lo. induction n as [|n IH]; intros lo.
  - cbn [Nat.add app]. replace (lo + step * Z.of_nat 0) with lo by lia.
    reflexivity.
  - cbn [Nat.add]. rewrite !stride_more, IH. cbn [app]. do 3 f_equal. lia.
Qed.

Lemma stride_count_split step lo mid hi :
  0 < step -> lo <= mid <= hi -> (step | mid - lo) ->
  stride_count step lo hi
  = (stride_count step lo mid + stride_count step mid hi)%nat.
Proof.
  intros Hstep Hle [k Hk]. unfold stride_count.
  assert (0 <= k) by nia.
  replace (hi - lo + (step - 1)) with (hi - mid + (step - 1) + k * step) by lia.
  replace (mid - lo + (step - 1)) with (step - 1 + k * step) by lia.
  rewrite !Z.div_add by lia. rewrite (Z.div_small (step - 1)) by lia.
  assert (0 <= (hi - mid + (step - 1)) / step) by (apply Z.div_pos; lia).
  lia.
Qed.

Lemma dump_addresses_map body us :
  (forall a, dump_address (body a) = [a]) ->
  dump_addresses (map body us) = us.
Proof.
  intros Hbody. induction us as [|a us IH]; [reflexivity|].
  unfold dump_addresses in *. cbn [map flat_map]. rewrite Hbody, IH.
  reflexivity.
Qed.

Lemma dump_addresses_app out1 out2 :
  dump_addresses (out1 ++ out2) = dump_addresses out1 ++ dump_addresses out2.
Proof. apply flat_map_app. Qed.

Section VirtualDump.

Variable pgdir_walk : memory -> Z -> Z -> Z.
Variable kern_pgdir : Z.
Variable m : memory.

Local Abbreviation run := (virt_run pgdir_walk kern_pgdir m).
Local Abbreviation loop := (virtmem_loop pgdir_walk kern_pgdir).

Lemma virt_run_address va end_va a :
  dump_address (fst (run va end_va) a) = [a].
Proof.
  unfold virt_run. destruct (_ =? 0); [reflexivity|].
  destruct (_ =? 0); reflexivity.
Qed.

(** Where a run stops when its bound is not lost: at the end of the range
    or at the next directory boundary (no directory entry) or page boundary
    (a directory entry), whichever comes first. *)
Lemma virt_run_bound va end_va :
  0 <= va < 2 ^ 32 ->
  boundary_lost (pgdir_walk m kern_pgdir va) va = false ->
  snd (run va end_va)
  = Z.min end_va
      (if pgdir_walk m kern_pgdir va =? 0 then next_pde_boundary va
       else next_page_boundary va).
Proof.
  intros Hva Hok. unfold virt_run, boundary_lost in *.
  destruct (pgdir_walk m kern_pgdir va =? 0).
  - cbn [snd]. rewrite MIN_ADDR_min, directory_bound; [reflexivity|exact Hva|].
    apply Z.eqb_neq. exact Hok.
  - destruct (Z.land _ PTE_P =? 0); cbn [snd];
      rewrite MIN_ADDR_min, table_bound by assumption; reflexivity.
Qed.

(** What a run prints: no-mapping records when the walk found no directory
    entry or an entry without the present bit, and otherwise records with the
    entry's physical base or-ed with the page offset and the word read at the
    virtual address. *)
Lemma virt_run_body va end_va :
  fst (run va end_va)
  = if pte_present m (pgdir_walk m kern_pgdir va)
    then fun a =>
           VirtMapped a
             (Z.lor (PTE_ADDR (load m (pgdir_walk m kern_pgdir va))) (PGOFF a))
             (load m a)
    else VirtUnmapped.
Proof.
  unfold virt_run, pte_present.
  destruct (pgdir_walk m kern_pgdir va =? 0); [reflexivity|].
  destruct (Z.land _ PTE_P =? 0); reflexivity.
Qed.

(** One turn of the while loop from an address whose bound is not lost:
    the run's records for the units up to its bound, then the loop again
    from the bound. *)
Lemma virtmem_loop_turn va end_va fuel :
  0 <= va < end_va -> end_va <= 2 ^ 32 - 4 ->
  (UNIT_LEN | va) -> (UNIT_LEN | end_va) ->
  boundary_lost (pgdir_walk m kern_pgdir va) va = false ->
  (stride_count UNIT_LEN va (snd (run va end_va)) < fuel)%nat ->
  va < snd (run va end_va) <= end_va
  /\ (UNIT_LEN | snd (run va end_va))
  /\ loop (S fuel) m va end_va
     = match loop fuel m (snd (run va end_va)) end_va with
       | Some rest =>
           Some (map (fst (run va end_va)) (units va (snd (run va end_va)))
                   ++ rest)
       | None => None
       end.
Proof.
  intros Hva Hend Hal_va Hal_end Hok Hfuel.
  pose proof (virt_run_bound va end_va ltac:(lia) Hok) as Hbound.
  assert (Hnext : va < snd (run va end_va) <= end_va).
  { rewrite Hbound. pose proof (next_pde_after va).
    pose proof (next_page_after va).
    destruct (pgdir_walk m kern_pgdir va =? 0); lia. }
  assert (Hal_next : (UNIT_LEN | snd (run va end_va))).
  { rewrite Hbound.
    destruct (pgdir_walk m kern_pgdir va =? 0);
      apply Z.min_case; auto using next_pde_aligned, next_page_aligned. }
  split; [exact Hnext|]. split; [exact Hal_next|].
  cbn [virtmem_loop].
  assert (Hlt : (va <? end_va) = true) by (apply Z.ltb_lt; lia).
  rewrite Hlt. destruct (run va end_va) as [body next_addr] eqn:Hrun.
  cbn [fst snd] in *.
  rewrite for_units_run by lia.
  rewrite (stride_count_aligned UNIT_LEN ltac:(reflexivity));
    [reflexivity|lia|].
  apply Z.mod_divide; [discriminate|]. apply Z.divide_sub_r; assumption.
Qed.

(** Run coverage away from lost bounds: the dump of an aligned range
    returns, and the addresses of its records are the units of the range in
    order, each once. *)
Lemma virtmem_loop_covers end_va :
  end_va <= 2 ^ 32 - 4 -> (UNIT_LEN | end_va) ->
  forall (fuel : nat) va,
    0 <= va -> (UNIT_LEN | va) ->
    (forall a, va <= a < end_va ->
               boundary_lost (pgdir_walk m kern_pgdir a) a = false) ->
    (stride_count UNIT_LEN va end_va + 1 < fuel)%nat ->
    exists out,
      loop fuel m va end_va = Some out /\ dump_addresses out = units va end_va.
Proof.
  intros Hend Hal_end.
  induction fuel as [|fuel IH]; intros va Hva Hal_va Hok Hfuel;
    [inversion Hfuel|].
  destruct (Z.ltb_spec va end_va) as [Hlt|Hge].
  - assert (Hmono : forall hi, va <= hi <= end_va -> (UNIT_LEN | hi) ->
              stride_count UNIT_LEN va end_va
              = (stride_count UNIT_LEN va hi
                 + stride_count UNIT_LEN hi end_va)%nat).
    { intros hi Hhi Hal_hi.
      apply stride_count_split; [reflexivity|lia|].
      apply Z.divide_sub_r; assumption. }
    assert (Hturn : (stride_count UNIT_LEN va (snd (run va end_va)) < fuel)%nat
                    -> _)
      by (exact (virtmem_loop_turn va end_va fuel ltac:(lia) Hend Hal_va
                   Hal_end (Hok va ltac:(lia)))).
    pose proof (virt_run_bound va end_va ltac:(lia) (Hok va ltac:(lia)))
      as Hbound.
    assert (Hnext : va < snd (run va end_va) <= end_va).
    { rewrite Hbound. pose proof (next_pde_after va).
      pose proof (next_page_after va).
      destruct (pgdir_walk m kern_pgdir va =? 0); lia. }
    assert (Hal_next : (UNIT_LEN | snd (run va end_va))).
    { rewrite Hbound.
      destruct (pgdir_walk m kern_pgdir va =? 0);
        apply Z.min_case; auto using next_pde_aligned, next_page_aligned. }
    pose proof (Hmono (snd (run va end_va)) ltac:(lia) Hal_next) as Hsplit.
    assert (Hfirst : (0 < stride_count UNIT_LEN va (snd (run va end_va)))%nat).
    { rewrite (stride_count_more UNIT_LEN ltac:(reflexivity)) by lia. lia. }
    destruct (Hturn ltac:(lia)) as [_ [_ Eturn]].
    destruct (IH (snd (run va end_va)) ltac:(lia) Hal_next) as [rest [Erest Hrest]].
    { intros a Ha. apply Hok. lia. }
    { lia. }
    rewrite Eturn, Erest. eexists. split; [reflexivity|].
    rewrite dump_addresses_app, Hrest.
    rewrite dump_addresses_map by (intros a; apply virt_run_address).
    unfold units. rewrite Hsplit, stride_app. do 2 f_equal. symmetry.
    apply (stride_count_aligned UNIT_LEN ltac:(reflexivity)); [lia|].
    apply Z.mod_divide; [discriminate|]. apply Z.divide_sub_r; assumption.
  - exists []. cbn [virtmem_loop].
    assert (E : (va <? end_va) = false) by (apply Z.ltb_ge; exact Hge).
    rewrite E. split; [reflexivity|].
    unfold units.
    rewrite (stride_count_done UNIT_LEN ltac:(reflexivity)) by exact Hge.
    reflexivity.
Qed.

(** A run whose bound is not above its start prints nothing and leaves the
    loop where it was: the while loop never ends. *)
Lemma virtmem_loop_no_progress va end_va :
  va < end_va -> snd (run va end_va) <= va ->
  forall fuel, loop fuel m va end_va = None.
Proof.
  intros Hlt Hstuck. induction fuel as [|fuel IH]; [reflexivity|].
  cbn [virtmem_loop].
  assert (E : (va <? end_va) = true) by (apply Z.ltb_lt; exact Hlt).
  rewrite E. destruct (run va end_va) as [body next_addr]. cbn [snd] in Hstuck.
  destruct fuel as [|fuel]; [reflexivity|].
  cbn [for_units].
  assert (E' : (va <? next_addr) = false) by (apply Z.ltb_ge; exact Hstuck).
  rewrite E'. rewrite IH. reflexivity.
Qed.

(** From any address whose bound is lost the dump never returns. *)
Lemma virtmem_loop_lost va end_va :
  0 <= va < end_va -> va < 2 ^ 32 ->
  boundary_lost (pgdir_walk m kern_pgdir va) va = true ->
  forall fuel, loop fuel m va end_va = None.
Proof.
  intros Hva Hlt Hlost. apply virtmem_loop_no_progress; [lia|].
  unfold virt_run, boundary_lost in *.
  destruct (pgdir_walk m kern_pgdir va =? 0).
  - cbn [snd]. apply Z.eqb_eq in Hlost.
    rewrite MIN_ADDR_min, directory_bound_lost by (exact Hlost || lia). lia.
  - apply andb_prop in Hlost. destruct Hlost as [Et Eo].
    apply Z.eqb_eq in Et.
    destruct (table_bound_lost va ltac:(lia) Et Eo) as [E Hle].
    destruct (Z.land _ PTE_P =? 0); cbn [snd]; rewrite MIN_ADDR_min, E; lia.
Qed.

End VirtualDump.

(** The scenario of the specification, run: one no-mapping record at 0x0ffc,
    the 1024 units of the page at 0x1000 with physical addresses from 0x5000
    on, then no-mapping records at 0x2000 and 0x2004. *)
Example scenario_dump :
  mon_dumpmemory (two_level_walk kaddr) sample_pgdir 16 kaddr 1100
    scenario_kernel false 0x0ffc 1027
  = Some (VirtUnmapped 0x0ffc
            :: map (fun a => VirtMapped a (0x5000 + (a - 0x1000))
                               (load scenario_kernel a))
                   (units 0x1000 0x2000)
            ++ [VirtUnmapped 0x2000; VirtUnmapped 0x2004]).
Proof. vm_compute. reflexivity. Qed.

(** Run coverage for the command, away from lost bounds: when the range
    does not wrap and no address in it has its run bound lost, the dump
    returns and the addresses of its records are exactly the units from the
    aligned start to the end. *)
Lemma virtual_dump_covers
  (pgdir_walk : memory -> Z -> Z -> Z) (kern_pgdir npages : Z)
  (KADDR : Z -> Z) (m : memory) (fuel : nat) (start_addr n : Z) :
  let start_va := ROUNDDOWN start_addr UNIT_LEN in
  let end_va := start_va + n * UNIT_LEN in
  0 <= start_addr < 2 ^ 32 -> 0 <= n -> end_va < 2 ^ 32 ->
  (forall a, start_va <= a < end_va ->
             boundary_lost (pgdir_walk m kern_pgdir a) a = false) ->
  (stride_count UNIT_LEN start_va end_va + 1 < fuel)%nat ->
  exists out,
    mon_dumpmemory pgdir_walk kern_pgdir npages KADDR fuel m false start_addr n
    = Some out
    /\ dump_addresses out = units start_va end_va.
Proof.
  intros start_va end_va Hs Hn He Hok Hfuel.
  destruct (ROUNDDOWN_aligned start_addr UNIT_LEN ltac:(reflexivity) Hs)
    as [Hal Hrange]. fold start_va in Hal, Hrange.
  unfold mon_dumpmemory, dump_virtmem. fold start_va.
  assert (Hend : wrap32 (start_va + wrap32 (n * UNIT_LEN)) = end_va).
  { unfold end_va, UNIT_LEN in *.
    rewrite (wrap32_small (n * 4)) by lia. apply wrap32_small. lia. }
  rewrite Hend.
  assert (Hal_s : (UNIT_LEN | start_va)).
  { exists (start_addr / UNIT_LEN). lia. }
  assert (Hal_e : (UNIT_LEN | end_va)).
  { unfold end_va. apply Z.divide_add_r; [exact Hal_s|].
    apply Z.divide_factor_r. }
  apply virtmem_loop_covers; try assumption; [|lia].
  destruct Hal_e as [k Hk]. unfold UNIT_LEN in *. lia.
Qed.

(** C1 at the last page of a page table whose directory index is odd: a
    dump of the single unit at 0xf07ff000, an address the walk has an entry
    for, is to produce exactly the record for 0xf07ff000; the bound of its
    run is computed below the address, so no record is printed and no amount
    of fuel lets the dump return. *)
Theorem virtual_dump_last_table_entry_never_returns
  (pgdir_walk : memory -> Z -> Z -> Z) (kern_pgdir npages : Z)
  (KADDR : Z -> Z) (m : memory) (fuel : nat) :
  pgdir_walk m kern_pgdir 0xf07ff000 <> 0 ->
  units (ROUNDDOWN 0xf07ff000 UNIT_LEN)
        (ROUNDDOWN 0xf07ff000 UNIT_LEN + 1 * UNIT_LEN) = [0xf07ff000]
  /\ mon_dumpmemory pgdir_walk kern_pgdir npages KADDR fuel m false
       0xf07ff000 1 = None.
Proof.
  intros Hwalk. split; [reflexivity|].
  unfold mon_dumpmemory, dump_virtmem.
  change (ROUNDDOWN 0xf07ff000 UNIT_LEN) with 0xf07ff000.
  change (wrap32 (0xf07ff000 + wrap32 (1 * UNIT_LEN))) with 0xf07ff004.
  apply virtmem_loop_no_progress; [lia|].
  unfold virt_run. apply Z.eqb_neq in Hwalk. rewrite Hwalk.
  destruct (Z.land _ PTE_P =? 0); cbn [snd];
    apply Z.leb_le; vm_compute; reflexivity.
Qed.

Lemma virtual_dump_last_table_entry_never_returns_witness :
  units (ROUNDDOWN 0xf07ff000 UNIT_LEN)
        (ROUNDDOWN 0xf07ff000 UNIT_LEN + 1 * UNIT_LEN) = [0xf07ff000]
  /\ mon_dumpmemory (two_level_walk kaddr) sample_pgdir 65536 kaddr 1000
       sample_kernel false 0xf07ff000 1 = None.
Proof.
  apply (virtual_dump_last_table_entry_never_returns (two_level_walk kaddr)
           sample_pgdir 65536 kaddr sample_kernel 1000).
  vm_compute. discriminate.
Defined.

(** The same at the top of the address space, whatever the page tables
    hold: the bound of a run starting in the last page wraps to zero or
    falls to the start of the last 4MB region. *)
Lemma virtual_dump_top_page_never_returns
  (pgdir_walk : memory -> Z -> Z -> Z) (kern_pgdir npages : Z)
  (KADDR : Z -> Z) (m : memory) (fuel : nat) :
  mon_dumpmemory pgdir_walk kern_pgdir npages KADDR fuel m false 0xfffffff0 1
  = None.
Proof.
  unfold mon_dumpmemory, dump_virtmem.
  change (ROUNDDOWN 0xfffffff0 UNIT_LEN) with 0xfffffff0.
  change (wrap32 (0xfffffff0 + wrap32 (1 * UNIT_LEN))) with 0xfffffff4.
  apply virtmem_loop_no_progress; [lia|].
  unfold virt_run. destruct (_ =? 0); [|destruct (Z.land _ PTE_P =? 0)];
    cbn [snd]; apply Z.leb_le; vm_compute; reflexivity.
Qed.

(** C2 where the bound is lost: with no directory entry for the last 4MB
    region, the run from 0xffc00000 is to reach the end of the range, and
    with a directory entry but no present table entry for 0x007ff000 the run
    is to reach the end of the range as well (the next page boundary,
    0x00800000, lies beyond it); the code computes the bounds 0 and
    0x00400000, prints no record in either run and never returns. *)
Theorem unmapped_run_bound_lost
  (pgdir_walk : memory -> Z -> Z -> Z) (kern_pgdir : Z) (m : memory)
  (fuel : nat) :
  pgdir_walk m kern_pgdir 0xffc00000 = 0 ->
  pgdir_walk m kern_pgdir 0x007ff000 <> 0 ->
  Z.land (load m (pgdir_walk m kern_pgdir 0x007ff000)) PTE_P = 0 ->
  (virt_run pgdir_walk kern_pgdir m 0xffc00000 0xffc00010 = (VirtUnmapped, 0)
   /\ for_units (S fuel) VirtUnmapped 0xffc00000 0 = Some ([], 0xffc00000)
   /\ dump_virtmem pgdir_walk kern_pgdir fuel m 0xffc00000 16 = None)
  /\ (virt_run pgdir_walk kern_pgdir m 0x007ff000 0x007ff010
      = (VirtUnmapped, 0x00400000)
      /\ Z.min 0x007ff010 (next_page_boundary 0x007ff000) = 0x007ff010
      /\ for_units (S fuel) VirtUnmapped 0x007ff000 0x00400000
         = Some ([], 0x007ff000)
      /\ dump_virtmem pgdir_walk kern_pgdir fuel m 0x007ff000 16 = None).
Proof.
  intros Hdir Hwalk Habsent.
  assert (E1 : virt_run pgdir_walk kern_pgdir m 0xffc00000 0xffc00010
               = (VirtUnmapped, 0)).
  { unfold virt_run. rewrite Hdir. reflexivity. }
  assert (E2 : virt_run pgdir_walk kern_pgdir m 0x007ff000 0x007ff010
               = (VirtUnmapped, 0x00400000)).
  { unfold virt_run. apply Z.eqb_neq in Hwalk. rewrite Hwalk, Habsent.
    reflexivity. }
  split; (split; [assumption|]).
  - split; [reflexivity|].
    unfold dump_virtmem.
    change (wrap32 (0xffc00000 + 16)) with 0xffc00010.
    apply virtmem_loop_no_progress; [lia|]. rewrite E1. cbn [snd]. lia.
  - split; [reflexivity|]. split; [reflexivity|].
    unfold dump_virtmem.
    change (wrap32 (0x007ff000 + 16)) with 0x007ff010.
    apply virtmem_loop_no_progress; [lia|]. rewrite E2. cbn [snd]. lia.
Qed.

Lemma unmapped_run_bound_lost_witness :
  (virt_run (two_level_walk kaddr) sample_pgdir sample_kernel
     0xffc00000 0xffc00010 = (VirtUnmapped, 0)
   /\ for_units 5 VirtUnmapped 0xffc00000 0 = Some ([], 0xffc00000)
   /\ dump_virtmem (two_level_walk kaddr) sample_pgdir 4 sample_kernel
        0xffc00000 16 = None)
  /\ (virt_run (two_level_walk kaddr) sample_pgdir sample_kernel
        0x007ff000 0x007ff010
      = (VirtUnmapped, 0x00400000)
      /\ Z.min 0x007ff010 (next_page_boundary 0x007ff000) = 0x007ff010
      /\ for_units 5 VirtUnmapped 0x007ff000 0x00400000
         = Some ([], 0x007ff000)
      /\ dump_virtmem (two_level_walk kaddr) sample_pgdir 4 sample_kernel
           0x007ff000 16 = None).
Proof.
  apply (unmapped_run_bound_lost (two_level_walk kaddr) sample_pgdir
           sample_kernel 4).
  - vm_compute. reflexivity.
  - vm_compute. discriminate.
  - vm_compute. reflexivity.
Defined.

(** C7 where the bound is lost: the top page of the kernel stack,
    0xeffff000, is the last page of a table with an odd directory index.
    With a present mapping for it, the run from 0xeffff000 is to reach the
    end of the range 0xeffff010; the code computes the bound 0xefc00000,
    prints no record and never returns. *)
Theorem mapped_run_bound_lost
  (pgdir_walk : memory -> Z -> Z -> Z) (kern_pgdir : Z) (m : memory)
  (fuel : nat) :
  pgdir_walk m kern_pgdir 0xeffff000 <> 0 ->
  Z.land (load m (pgdir_walk m kern_pgdir 0xeffff000)) PTE_P <> 0 ->
  Z.min 0xeffff010 (next_page_boundary 0xeffff000) = 0xeffff010
  /\ snd (virt_run pgdir_walk kern_pgdir m 0xeffff000 0xeffff010) = 0xefc00000
  /\ for_units (S fuel)
       (fst (virt_run pgdir_walk kern_pgdir m 0xeffff000 0xeffff010))
       0xeffff000
       (snd (virt_run pgdir_walk kern_pgdir m 0xeffff000 0xeffff010))
     = Some ([], 0xeffff000)
  /\ dump_virtmem pgdir_walk kern_pgdir fuel m 0xeffff000 16 = None.
Proof.
  intros Hwalk Hpresent.
  assert (E : snd (virt_run pgdir_walk kern_pgdir m 0xeffff000 0xeffff010)
              = 0xefc00000).
  { unfold virt_run. apply Z.eqb_neq in Hwalk, Hpresent.
    rewrite Hwalk, Hpresent. reflexivity. }
  split; [reflexivity|]. split; [exact E|]. split.
  - rewrite E. reflexivity.
  - unfold dump_virtmem.
    change (wrap32 (0xeffff000 + 16)) with 0xeffff010.
    apply virtmem_loop_no_progress; [lia|]. rewrite E. lia.
Qed.

Lemma mapped_run_bound_lost_witness :
  Z.min 0xeffff010 (next_page_boundary 0xeffff000) = 0xeffff010
  /\ snd (virt_run (two_level_walk kaddr) sample_pgdir sample_kernel
            0xeffff000 0xeffff010) = 0xefc00000
  /\ for_units 5
       (fst (virt_run (two_level_walk kaddr) sample_pgdir sample_kernel
               0xeffff000 0xeffff010))
       0xeffff000
       (snd (virt_run (two_level_walk kaddr) sample_pgdir sample_kernel
               0xeffff000 0xeffff010))
     = Some ([], 0xeffff000)
  /\ dump_virtmem (two_level_walk kaddr) sample_pgdir 4 sample_kernel
       0xeffff000 16 = None.
Proof.
  apply (mapped_run_bound_lost (two_level_walk kaddr) sample_pgdir
           sample_kernel 4).
  - vm_compute. discriminate.
  - vm_compute. discriminate.
Defined.

(** ** The commands on the sample kernel *)

Example sample_backtrace :
  mon_backtrace sample_resolver 3 sample_stack 0xf010ff18
  = Some [ BacktraceHeader;
           BacktraceFrame 0xf010ff18 0xf010ff1c
             [0xf010ff20; 0xf010ff24; 0xf010ff28; 0xf010ff2c; 0xf010ff30];
           BacktraceInfo "kern/init.c" 24 14 "test_backtrace" 5;
           BacktraceFrame 0xf010ff38 0xf010ff3c
             [0xf010ff40; 0xf010ff44; 0xf010ff48; 0xf010ff4c; 0xf010ff50];
           BacktraceInfo "kern/init.c" 24 14 "test_backtrace" 5 ].
Proof. vm_compute. reflexivity. Qed.

Example sample_showmapping :
  mon_showmapping (two_level_walk kaddr) sample_pgdir paddr 4 sample_kernel
    0xf0000123 0xf0001fff
  = Some [ ShowRange 0xf0000000 0xf0001000;
           ShowVA 0xf0000000; PteNoMapping;
           ShowVA 0xf0001000; PtePA 0x1000 true false ].
Proof. vm_compute. reflexivity. Qed.

Example sample_setperm :
  let (m', out) :=
    mon_setperm (two_level_walk kaddr) sample_pgdir sample_kernel
      0xf0001234 0x4 in
  out = [PermSet 0x4 0xf0001234]
  /\ load m' 0xf011b004 = 0x00001005
  /\ load sample_kernel 0xf011b004 = 0x00001003.
Proof. vm_compute. repeat split. Qed.

Example sample_physical_dump :
  mon_dumpmemory (two_level_walk kaddr) sample_pgdir 16 kaddr 8 sample_kernel
    true 0xfff2 3
  = Some [ PhysUnit 0xfff0 0; PhysUnit 0xfff4 0; PhysUnit 0xfff8 0 ].
Proof. vm_compute. reflexivity. Qed.

Example scenario_dump_covered :
  exists out,
    mon_dumpmemory (two_level_walk kaddr) sample_pgdir 16 kaddr 1100
      scenario_kernel false 0x0ffc 1027 = Some out
    /\ dump_addresses out = units 0x0ffc 0x2008.
Proof.
  apply (virtual_dump_covers (two_level_walk kaddr) sample_pgdir 16 kaddr
           scenario_kernel 1100 0x0ffc 1027).
  - lia.
  - lia.
  - reflexivity.
  - change (ROUNDDOWN 0x0ffc UNIT_LEN) with 0x0ffc.
    change (0x0ffc + 1027 * UNIT_LEN) with 0x2008.
    intros a Ha. unfold boundary_lost.
    assert (Ed : PDX a = 0).
    { rewrite PDX_div by lia. apply Z.div_small. lia. }
    assert (Et : PTX a <> 1023).
    { rewrite PTX_div.
      assert (0 <= a / 2 ^ 12 < 3).
      { split; [apply Z.div_pos; lia|apply Z.div_lt_upper_bound; lia]. }
      rewrite Z.mod_small by lia. lia. }
    apply Z.eqb_neq in Et. rewrite Ed, Et.
    destruct (_ =? 0); reflexivity.
  - apply Nat.ltb_lt. vm_compute. reflexivity.
Qed.

(** ** hex2uint and dec2uint *)

Lemma wrap32_wrap32 z : wrap32 (wrap32 z) = wrap32 z.
Proof. unfold wrap32. apply Z.mod_mod. lia. Qed.

Lemma wrap32_add_r a b : wrap32 (a + wrap32 b) = wrap32 (a + b).
Proof. unfold wrap32. apply Zplus_mod_idemp_r. Qed.

Lemma wrap32_mul_l a b : wrap32 (wrap32 a * b) = wrap32 (a * b).
Proof. unfold wrap32. apply Zmult_mod_idemp_l. Qed.

(** One turn of hex2uint's loop is one step of Horner's rule, in 32 bits. *)
Lemma hex2uint_loop_step c rest sum :
  is_nul c = false ->
  hex2uint_loop (String c rest) sum
  = hex2uint_loop rest (wrap32 (sum * 16 + hex_digit c)).
Proof.
  intros Hc. cbn [hex2uint_loop]. rewrite Hc. f_equal.
  rewrite Z.shiftl_mul_pow2 by lia. change (2 ^ 4) with 16.
  unfold hex_digit.
  destruct ((char_val "a" <=? char_val c) && (char_val c <=? char_val "f")).
  - apply wrap32_add_l.
  - destruct ((char_val "0" <=? char_val c) && (char_val c <=? char_val "9")).
    + apply wrap32_add_l.
    + rewrite Z.add_0_r. reflexivity.
Qed.

Lemma dec2uint_loop_step c rest sum :
  is_nul c = false ->
  dec2uint_loop (String c rest) sum
  = dec2uint_loop rest (wrap32 (sum * 10 + dec_digit c)).
Proof.
  intros Hc. cbn [dec2uint_loop]. rewrite Hc. f_equal.
  unfold dec_digit.
  destruct ((char_val "0" <=? char_val c) && (char_val c <=? char_val "9")).
  - apply wrap32_add_l.
  - rewrite Z.add_0_r. reflexivity.
Qed.

Lemma hex2uint_loop_value s sum :
  0 <= sum < 2 ^ 32 ->
  hex2uint_loop s sum
  = wrap32 (sum * 16 ^ Z.of_nat (List.length (c_chars s))
            + numeral_value 16 (map hex_digit (c_chars s))).
Proof.
  revert sum. induction s as [|c rest IH]; intros sum Hsum.
  - cbn. rewrite Z.mul_1_r, Z.add_0_r. symmetry. apply wrap32_small. exact Hsum.
  - destruct (is_nul c) eqn:Hc.
    + cbn [hex2uint_loop c_chars]. rewrite Hc.
      cbn. rewrite Z.mul_1_r, Z.add_0_r. symmetry. apply wrap32_small.
      exact Hsum.
    + rewrite hex2uint_loop_step by exact Hc.
      rewrite IH by apply wrap32_range.
      cbn [c_chars]. rewrite Hc. cbn [map numeral_value List.length].
      rewrite length_map.
      rewrite Nat2Z.inj_succ, Z.pow_succ_r by lia.
      rewrite <- wrap32_add_l, wrap32_mul_l, wrap32_add_l.
      f_equal. ring.
Qed.

Lemma dec2uint_loop_value s sum :
  0 <= sum < 2 ^ 32 ->
  dec2uint_loop s sum
  = wrap32 (sum * 10 ^ Z.of_nat (List.length (c_chars s))
            + numeral_value 10 (map dec_digit (c_chars s))).
Proof.
  revert sum. induction s as [|c rest IH]; intros sum Hsum.
  - cbn. rewrite Z.mul_1_r, Z.add_0_r. symmetry. apply wrap32_small. exact Hsum.
  - destruct (is_nul c) eqn:Hc.
    + cbn [dec2uint_loop c_chars]. rewrite Hc.
      cbn. rewrite Z.mul_1_r, Z.add_0_r. symmetry. apply wrap32_small.
      exact Hsum.
    + rewrite dec2uint_loop_step by exact Hc.
      rewrite IH by apply wrap32_range.
      cbn [c_chars]. rewrite Hc. cbn [map numeral_value List.length].
      rewrite length_map.
      rewrite Nat2Z.inj_succ, Z.pow_succ_r by lia.
      rewrite <- wrap32_add_l, wrap32_mul_l, wrap32_add_l.
      f_equal. ring.
Qed.

(** X1: whatever its first two characters are, hex2uint returns the value
    of the rest read as a base-16 numeral, every character other than 0-9
    and a-f (capital letters too) counting as the digit 0, reduced modulo
    2^32. *)
Theorem hex2uint_value (c1 c2 : ascii) (s : string) :
  is_nul c1 = false -> is_nul c2 = false ->
  hex2uint (String c1 (String c2 s))
  = Some (numeral_value 16 (map hex_digit (c_chars s)) mod 2 ^ 32).
Proof.
  intros H1 H2. unfold hex2uint. rewrite H1, H2. cbn [orb].
  rewrite hex2uint_loop_value by lia. reflexivity.
Qed.

Lemma hex2uint_value_witness :
  hex2uint "0XfF12345678"
  = Some (numeral_value 16 (map hex_digit (c_chars "fF12345678")) mod 2 ^ 32).
Proof.
  apply (hex2uint_value "0" "X" "fF12345678"); reflexivity.
Defined.

(** X2: dec2uint returns the value of its argument read as a base-10
    numeral, every character other than 0-9 counting as the digit 0, reduced
    modulo 2^32. *)
Theorem dec2uint_value (s : string) :
  dec2uint s = numeral_value 10 (map dec_digit (c_chars s)) mod 2 ^ 32.
Proof.
  unfold dec2uint. rewrite dec2uint_loop_value by lia. reflexivity.
Qed.

Lemma digit_char_cases d :
  0 <= d < 16 ->
  d = 0 \/ d = 1 \/ d = 2 \/ d = 3 \/ d = 4 \/ d = 5 \/ d = 6 \/ d = 7 \/
  d = 8 \/ d = 9 \/ d = 10 \/ d = 11 \/ d = 12 \/ d = 13 \/ d = 14 \/ d = 15.
Proof. lia. Qed.

Lemma digit_char_hex d :
  0 <= d < 16 ->
  is_nul (digit_char d) = false /\ hex_digit (digit_char d) = d.
Proof.
  intros H. pose proof (digit_char_cases d H) as C.
  repeat (destruct C as [->|C]; [split; reflexivity|]).
  subst d. split; reflexivity.
Qed.

Lemma digit_char_dec d :
  0 <= d < 10 ->
  is_nul (digit_char d) = false /\ dec_digit (digit_char d) = d.
Proof.
  intros H. pose proof (digit_char_cases d ltac:(lia)) as C.
  repeat (destruct C as [->|C]; [split; (reflexivity || lia)|]).
  lia.
Qed.

Lemma string_app_assoc (a b c : string) : ((a ++ b) ++ c = a ++ (b ++ c))%string.
Proof. induction a as [|x a IH]; [reflexivity|]. cbn. rewrite IH. reflexivity. Qed.

Lemma numeral_step base n :
  0 < base -> n = base * (n / base) + n mod base /\ 0 <= n mod base < base.
Proof.
  intros Hb. split; [apply Z.div_mod; lia|apply Z.mod_pos_bound; exact Hb].
Qed.

Lemma hex2uint_loop_numeral width :
  forall n rest sum,
    0 <= n < 16 ^ Z.of_nat width -> 0 <= sum < 2 ^ 32 ->
    hex2uint_loop (numeral 16 width n ++ rest) sum
    = hex2uint_loop rest (wrap32 (sum * 16 ^ Z.of_nat width + n)).
Proof.
  induction width as [|w IH]; intros n rest sum Hn Hsum.
  - cbn [numeral]. change (16 ^ Z.of_nat 0) with 1 in *.
    assert (n = 0) as -> by lia.
    cbn [append]. rewrite Z.mul_1_r, Z.add_0_r, wrap32_small by exact Hsum.
    reflexivity.
  - rewrite Nat2Z.inj_succ, Z.pow_succ_r in * by lia.
    destruct (numeral_step 16 n ltac:(lia)) as [En Hd].
    destruct (digit_char_hex (n mod 16) Hd) as [Hnul Hdig].
    cbn [numeral]. rewrite string_app_assoc. cbn [append].
    rewrite IH; [|split; [apply Z.div_pos; lia|
                          apply Z.div_lt_upper_bound; lia]|exact Hsum].
    rewrite hex2uint_loop_step by exact Hnul. rewrite Hdig.
    rewrite <- wrap32_add_l, wrap32_mul_l, wrap32_add_l.
    f_equal. f_equal. lia.
Qed.

Lemma dec2uint_loop_numeral width :
  forall n rest sum,
    0 <= n < 10 ^ Z.of_nat width -> 0 <= sum < 2 ^ 32 ->
    dec2uint_loop (numeral 10 width n ++ rest) sum
    = dec2uint_loop rest (wrap32 (sum * 10 ^ Z.of_nat width + n)).
Proof.
  induction width as [|w IH]; intros n rest sum Hn Hsum.
  - cbn [numeral]. change (10 ^ Z.of_nat 0) with 1 in *.
    assert (n = 0) as -> by lia.
    cbn [append]. rewrite Z.mul_1_r, Z.add_0_r, wrap32_small by exact Hsum.
    reflexivity.
  - rewrite Nat2Z.inj_succ, Z.pow_succ_r in * by lia.
    destruct (numeral_step 10 n ltac:(lia)) as [En Hd].
    destruct (digit_char_dec (n mod 10) Hd) as [Hnul Hdig].
    cbn [numeral]. rewrite string_app_assoc. cbn [append].
    rewrite IH; [|split; [apply Z.div_pos; lia|
                          apply Z.div_lt_upper_bound; lia]|exact Hsum].
    rewrite dec2uint_loop_step by exact Hnul. rewrite Hdig.
    rewrite <- wrap32_add_l, wrap32_mul_l, wrap32_add_l.
    f_equal. f_equal. lia.
Qed.

Lemma string_app_empty (s : string) : (s ++ "")%string = s.
Proof. induction s as [|c s IH]; [reflexivity|]. cbn. rewrite IH. reflexivity. Qed.

(** X3: hex2uint reads back every 32-bit value from its lowercase numeral
    of any width that holds it, leading zeros included, behind any
    two-character prefix; so an address printed as 0x%08x parses to itself. *)
Theorem hex2uint_numeral (c1 c2 : ascii) (width : nat) (n : Z) :
  is_nul c1 = false -> is_nul c2 = false ->
  0 <= n < 2 ^ 32 -> n < 16 ^ Z.of_nat width ->
  hex2uint (String c1 (String c2 (numeral 16 width n))) = Some n.
Proof.
  intros H1 H2 Hn Hw. unfold hex2uint. rewrite H1, H2. cbn [orb].
  rewrite <- (string_app_empty (numeral 16 width n)).
  rewrite hex2uint_loop_numeral by lia.
  cbn [hex2uint_loop]. rewrite Z.mul_0_l, Z.add_0_l, wrap32_small by exact Hn.
  reflexivity.
Qed.

Lemma hex2uint_numeral_witness :
  hex2uint (String "0" (String "x" (numeral 16 8 0xf011a000)))
  = Some 0xf011a000.
Proof.
  apply (hex2uint_numeral "0" "x" 8 0xf011a000); try reflexivity. lia.
Defined.

(** X4: dec2uint reads back every 32-bit value from its decimal numeral of
    any width that holds it. *)
Theorem dec2uint_numeral (width : nat) (n : Z) :
  0 <= n < 2 ^ 32 -> n < 10 ^ Z.of_nat width ->
  dec2uint (numeral 10 width n) = n.
Proof.
  intros Hn Hw. unfold dec2uint.
  rewrite <- (string_app_empty (numeral 10 width n)).
  rewrite dec2uint_loop_numeral by lia.
  cbn [dec2uint_loop]. rewrite Z.mul_0_l, Z.add_0_l. apply wrap32_small.
  exact Hn.
Qed.

Lemma dec2uint_numeral_witness : dec2uint (numeral 10 4 1027) = 1027.
Proof. apply (dec2uint_numeral 4 1027); lia. Defined.

Lemma c_chars_app pre s :
  List.length (c_chars pre) = String.length pre ->
  c_chars (pre ++ s) = c_chars pre ++ c_chars s.
Proof.
  induction pre as [|c pre IH]; intros H; [reflexivity|].
  cbn [append c_chars String.length] in *.
  destruct (is_nul c); [discriminate|].
  cbn [List.length app] in *. f_equal. apply IH. lia.
Qed.

Lemma numeral_value_app base ds es :
  numeral_value base (ds ++ es)
  = numeral_value base ds * base ^ Z.of_nat (List.length es)
    + numeral_value base es.
Proof.
  induction ds as [|d ds IH]; [cbn; lia|].
  cbn [app numeral_value]. rewrite IH, length_app, Nat2Z.inj_add.
  rewrite Z.pow_add_r by lia. ring.
Qed.

(** X5: hex2uint never rejects a long argument: digits before the last
    eight do not count, whatever they are. *)
Theorem hex2uint_keeps_last_eight (c1 c2 : ascii) (pre last : string) :
  is_nul c1 = false -> is_nul c2 = false ->
  List.length (c_chars pre) = String.length pre ->
  List.length (c_chars last) = 8%nat ->
  hex2uint (String c1 (String c2 (pre ++ last)))
  = hex2uint (String c1 (String c2 last)).
Proof.
  intros H1 H2 Hpre Hlast.
  rewrite !hex2uint_value by assumption. f_equal.
  rewrite c_chars_app by exact Hpre.
  rewrite map_app, numeral_value_app, length_map, Hlast.
  change (16 ^ Z.of_nat 8) with (1 * 2 ^ 32).
  rewrite Z.mul_assoc, Z.add_comm, Z.mod_add by lia. reflexivity.
Qed.

Lemma hex2uint_keeps_last_eight_witness :
  hex2uint (String "0" (String "x" ("ffff" ++ "f0100000")))
  = hex2uint (String "0" (String "x" "f0100000")).
Proof.
  apply (hex2uint_keeps_last_eight "0" "x" "ffff" "f0100000"); reflexivity.
Defined.

(** ** The argument splitter of runcmd *)

Lemma skip_whitespace_blank gap s :
  blank gap = true -> skip_whitespace (gap ++ s) = skip_whitespace s.
Proof.
  induction gap as [|c gap IH]; intros H; [reflexivity|].
  cbn [blank] in H. apply andb_prop in H. destruct H as [Hc Hgap].
  cbn [append skip_whitespace]. rewrite Hc. apply IH. exact Hgap.
Qed.

Lemma word_start w :
  word w = true ->
  exists c rest, w = String c rest /\ is_nul c = false
                 /\ is_whitespace c = false /\ solid rest = true.
Proof.
  unfold word. destruct w as [|c rest]; [discriminate|].
  cbn [negb andb solid String.eqb]. intros H.
  apply andb_prop in H. destruct H as [H Hrest].
  apply andb_prop in H. destruct H as [Hn Hw].
  exists c, rest. repeat split; try assumption.
  - destruct (is_nul c); [discriminate|reflexivity].
  - destruct (is_whitespace c); [discriminate|reflexivity].
Qed.

Lemma skip_whitespace_word w s :
  word w = true -> skip_whitespace (w ++ s) = (w ++ s)%string.
Proof.
  intros H. destruct (word_start w H) as [c [rest [-> [Hn [Hw _]]]]].
  cbn [append skip_whitespace]. rewrite Hn, Hw. reflexivity.
Qed.

Lemma at_end_word w s : word w = true -> at_end (w ++ s) = false.
Proof.
  intros H. destruct (word_start w H) as [c [rest [-> [Hn _]]]].
  exact Hn.
Qed.

Lemma scan_word_solid w s :
  solid w = true -> word_stop s = true -> scan_word (w ++ s) = (w, s).
Proof.
  induction w as [|c w IH]; intros Hw Hs.
  - cbn [append]. destruct s as [|c s]; [reflexivity|].
    cbn [scan_word word_stop] in *.
    destruct (is_nul c), (is_whitespace c); try discriminate; reflexivity.
  - cbn [solid] in Hw. apply andb_prop in Hw. destruct Hw as [Hc Hw].
    cbn [append scan_word]. rewrite Hc, (IH Hw Hs). reflexivity.
Qed.

Lemma word_stop_blank tail : blank tail = true -> word_stop tail = true.
Proof.
  destruct tail as [|c tail]; [reflexivity|]. cbn [blank word_stop].
  intros H. apply andb_prop in H. destruct H as [H _].
  apply andb_prop in H. destruct H as [_ H]. rewrite H. apply orb_true_r.
Qed.

Lemma word_stop_spaced words tail :
  well_spaced false words = true -> blank tail = true ->
  word_stop (spaced words tail) = true.
Proof.
  destruct words as [|[gap w] rest]; intros Hw Ht.
  - apply word_stop_blank. exact Ht.
  - cbn [well_spaced spaced orb] in *.
    apply andb_prop in Hw. destruct Hw as [Hw _].
    apply andb_prop in Hw. destruct Hw as [Hw _].
    apply andb_prop in Hw. destruct Hw as [Hgap Hne].
    destruct gap as [|c gap]; [discriminate|].
    cbn [append word_stop blank] in *.
    apply andb_prop in Hgap. destruct Hgap as [H _].
    apply andb_prop in H. destruct H as [_ H]. rewrite H. apply orb_true_r.
Qed.

Lemma skip_whitespace_all tail :
  blank tail = true -> skip_whitespace tail = EmptyString.
Proof.
  intros H. rewrite <- (string_app_empty tail).
  rewrite skip_whitespace_blank by exact H. reflexivity.
Qed.

(** The loop on a laid-out line: the words come out in order, unless there
    are more than fifteen in all. *)
Lemma parse_loop_spaced words :
  forall first tail argv fuel,
    well_spaced first words = true -> blank tail = true ->
    (List.length argv <= 15)%nat ->
    (List.length words < fuel)%nat ->
    parse_loop fuel (spaced words tail) argv
    = Some (if (List.length argv + List.length words <=? 15)%nat
            then Some (argv ++ map snd words) else None).
Proof.
  induction words as [|[gap w] rest IH]; intros first tail argv fuel Hw Ht Ha Hf.
  - destruct fuel as [|fuel]; [inversion Hf|].
    cbn [parse_loop spaced]. rewrite skip_whitespace_all by exact Ht.
    cbn [at_end List.length map]. rewrite Nat.add_0_r, app_nil_r.
    apply Nat.leb_le in Ha. rewrite Ha. reflexivity.
  - destruct fuel as [|fuel]; [inversion Hf|].
    cbn [well_spaced] in Hw.
    apply andb_prop in Hw. destruct Hw as [Hw Hrest].
    apply andb_prop in Hw. destruct Hw as [Hw Hword].
    apply andb_prop in Hw. destruct Hw as [Hgap _].
    cbn [parse_loop spaced].
    rewrite skip_whitespace_blank by exact Hgap.
    rewrite skip_whitespace_word, at_end_word by exact Hword.
    cbn [List.length map] in *.
    destruct (Z.eqb_spec (Z.of_nat (List.length argv)) (MAXARGS - 1)) as [E|NE].
    + unfold MAXARGS in E.
      assert (Hgt : (List.length argv + S (List.length rest) <=? 15)%nat = false)
        by (apply Nat.leb_gt; lia).
      rewrite Hgt. reflexivity.
    + unfold MAXARGS in NE.
      rewrite scan_word_solid.
      * rewrite (IH false tail (argv ++ [w]) fuel Hrest Ht);
          [|rewrite length_app; cbn [List.length]; lia|lia].
        rewrite length_app. cbn [List.length].
        replace (List.length argv + 1 + List.length rest)%nat
          with (List.length argv + S (List.length rest))%nat by lia.
        rewrite <- app_assoc. reflexivity.
      * unfold word in Hword. apply andb_prop in Hword. tauto.
      * apply word_stop_spaced; assumption.
Qed.

Lemma string_length_app (a b : string) :
  String.length (a ++ b) = (String.length a + String.length b)%nat.
Proof. induction a as [|c a IH]; [reflexivity|]. cbn. rewrite IH. reflexivity. Qed.

Lemma spaced_length first words tail :
  well_spaced first words = true ->
  (List.length words <= String.length (spaced words tail))%nat.
Proof.
  revert first. induction words as [|[gap w] rest IH]; intros first Hw.
  - cbn. lia.
  - cbn [well_spaced] in Hw.
    apply andb_prop in Hw. destruct Hw as [Hw Hrest].
    apply andb_prop in Hw. destruct Hw as [_ Hword].
    destruct (word_start w Hword) as [c [r [-> _]]].
    cbn [spaced List.length]. rewrite !string_length_app.
    cbn [String.length]. specialize (IH false Hrest). lia.
Qed.

(** X6: the argument splitter returns the words of a command line in
    order, whatever blanks, tabs, carriage returns and newlines separate and
    surround them, and gives up exactly when there are sixteen words or
    more. *)
Theorem parse_loop_words (words : list (string * string)) (tail : string) :
  well_spaced true words = true -> blank tail = true ->
  parse_loop (S (String.length (spaced words tail))) (spaced words tail) []
  = Some (if (List.length words <=? 15)%nat then Some (map snd words)
          else None).
Proof.
  intros Hw Ht.
  rewrite (parse_loop_spaced words true tail [] _ Hw Ht).
  - reflexivity.
  - cbn. lia.
  - pose proof (spaced_length true words tail Hw). lia.
Qed.

Lemma parse_loop_words_witness :
  parse_loop
    (S (String.length
          (spaced [(" ", "setperm"); ("  ", "0xf0001000"); (" ", "0x6")]%string
             " ")))
    (spaced [(" ", "setperm"); ("  ", "0xf0001000"); (" ", "0x6")]%string " ")
    []
  = Some (if (List.length
                [(" ", "setperm"); ("  ", "0xf0001000"); (" ", "0x6")]%string
              <=? 15)%nat
          then Some (map snd
                       [(" ", "setperm"); ("  ", "0xf0001000"); (" ", "0x6")]%string)
          else None).
Proof.
  apply (parse_loop_words
           [(" ", "setperm"); ("  ", "0xf0001000"); (" ", "0x6")]%string " ");
    reflexivity.
Defined.

Lemma skip_whitespace_shorter s :
  (String.length (skip_whitespace s) <= String.length s)%nat.
Proof.
  induction s as [|c s IH]; [cbn; lia|].
  cbn [skip_whitespace]. destruct (negb (is_nul c) && is_whitespace c);
    cbn [String.length]; lia.
Qed.

Lemma scan_word_parts s :
  solid (fst (scan_word s)) = true
  /\ (String.length (fst (scan_word s)) + String.length (snd (scan_word s))
      = String.length s)%nat.
Proof.
  induction s as [|c s [IH1 IH2]]; [split; reflexivity|].
  cbn [scan_word].
  destruct (negb (is_nul c) && negb (is_whitespace c)) eqn:E.
  - destruct (scan_word s) as [w rest]. cbn [fst snd solid String.length] in *.
    rewrite E, IH1. split; [reflexivity|lia].
  - split; reflexivity.
Qed.

Lemma scan_word_starts s :
  at_end (skip_whitespace s) = false ->
  word (fst (scan_word (skip_whitespace s))) = true.
Proof.
  induction s as [|c s IH]; [discriminate|].
  cbn [skip_whitespace].
  destruct (negb (is_nul c) && is_whitespace c) eqn:E; [exact IH|].
  cbn [at_end]. intros Hn. cbn [scan_word]. rewrite Hn in *.
  cbn [negb andb] in *. rewrite E. cbn [negb].
  pose proof (scan_word_parts s) as [Hs _].
  destruct (scan_word s) as [w rest]. cbn [fst] in *.
  unfold word. cbn [String.eqb negb andb solid]. rewrite Hn, E. exact Hs.
Qed.

Lemma parse_loop_returns fuel :
  forall buf argv,
    (String.length buf < fuel)%nat ->
    (List.length argv <= 15)%nat ->
    Forall (fun w => word w = true) argv ->
    exists r,
      parse_loop fuel buf argv = Some r
      /\ forall argv', r = Some argv' ->
                       (List.length argv' <= 15)%nat
                       /\ Forall (fun w => word w = true) argv'.
Proof.
  induction fuel as [|fuel IH]; intros buf argv Hf Ha Hw; [inversion Hf|].
  cbn [parse_loop].
  destruct (at_end (skip_whitespace buf)) eqn:Hend.
  - exists (Some argv). split; [reflexivity|].
    intros argv' E. injection E as <-. split; assumption.
  - destruct (Z.of_nat (List.length argv) =? MAXARGS - 1) eqn:Hmax.
    + exists None. split; [reflexivity|]. intros argv' E. discriminate.
    + apply Z.eqb_neq in Hmax. unfold MAXARGS in Hmax.
      pose proof (scan_word_starts buf Hend) as Hword.
      pose proof (scan_word_parts (skip_whitespace buf)) as [_ Hlen].
      pose proof (skip_whitespace_shorter buf) as Hskip.
      destruct (scan_word (skip_whitespace buf)) as [w rest].
      cbn [fst snd] in *.
      destruct (word_start w Hword) as [c [r [-> _]]].
      cbn [String.length] in Hlen.
      apply IH.
      * lia.
      * rewrite length_app. cbn [List.length]. lia.
      * apply Forall_app. split; [exact Hw|]. constructor; [exact Hword|].
        constructor.
Qed.

(** X7: on every buffer the argument splitter of runcmd returns; what it
    returns is either "too many arguments" or at most fifteen arguments,
    none of them empty and none holding whitespace or NUL. *)
Theorem parse_loop_total (buf : string) :
  exists r,
    parse_loop (S (String.length buf)) buf [] = Some r
    /\ forall argv, r = Some argv ->
                    (List.length argv <= 15)%nat
                    /\ Forall (fun w => word w = true) argv.
Proof.
  apply parse_loop_returns; [lia|cbn; lia|constructor].
Qed.

(** ** runcmd *)

Section RunCommand.

Variable pgdir_walk : memory -> Z -> Z -> Z.
Variable kern_pgdir : Z.
Variable npages : Z.
Variable KADDR : Z -> Z.
Variable PADDR : Z -> Z.
Variable debuginfo_eip : Z -> Eipdebuginfo.
Variable symbols : Symbols.
Variable read_ebp : Z.

Local Abbreviation run :=
  (runcmd pgdir_walk kern_pgdir npages KADDR PADDR debuginfo_eip symbols
     read_ebp).
Local Abbreviation invoke :=
  (call pgdir_walk kern_pgdir npages KADDR PADDR debuginfo_eip symbols
     read_ebp).







End RunCommand.







Lemma lookup_command_listed table name :
  lookup_command table name = None
  <-> ~ In name (map (fun c => fst (fst c)) table).
Proof.
  induction table as [|[[n d] c] rest IH]; cbn [lookup_command map In fst].
  - tauto.
  - destruct (String.eqb_spec name n) as [->|Hne].
    + split; [discriminate|]. intros H. exfalso. apply H. left. reflexivity.
    + rewrite IH. split.
      * intros H [E|Hin]; [congruence|tauto].
      * intros H Hin. apply H. right. exact Hin.
Qed.

Lemma mon_help_lists name :
  (exists desc, In (HelpEntry name desc) mon_help)
  <-> In name (map (fun c => fst (fst c)) commands).
Proof.
  unfold mon_help. split.
  - intros [desc H]. apply in_map_iff in H. destruct H as [c [E Hin]].
    injection E as <- _. apply in_map_iff. exists c. split; [reflexivity|exact Hin].
  - intros H. apply in_map_iff in H. destruct H as [c [<- Hin]].
    exists (snd (fst c)). apply in_map_iff. exists c. split; [reflexivity|exact Hin].
Qed.

(** X12: runcmd dispatches on the first word of the line and passes all the
    words on as argv; the words it accepts are exactly the names that help
    prints, and any other first word is answered with the unknown-command
    line, memory untouched. *)
Theorem runcmd_dispatch
  (pgdir_walk : memory -> Z -> Z -> Z) (kern_pgdir npages : Z)
  (KADDR PADDR : Z -> Z) (debuginfo_eip : Z -> Eipdebuginfo)
  (symbols : Symbols) (read_ebp : Z) (fuel : nat) (m : memory)
  (gap name : string) (rest : list (string * string)) (tail : string) :
  well_spaced true ((gap, name) :: rest) = true ->
  blank tail = true ->
  (List.length rest < 15)%nat ->
  runcmd pgdir_walk kern_pgdir npages KADDR PADDR debuginfo_eip symbols
    read_ebp fuel m (spaced ((gap, name) :: rest) tail)
  = match lookup_command commands name with
    | Some c =>
        call pgdir_walk kern_pgdir npages KADDR PADDR debuginfo_eip symbols
          read_ebp c fuel m (name :: map snd rest)
    | None => Returns 0 m [UnknownCommand name]
    end
  /\ (lookup_command commands name = None
      <-> ~ exists desc, In (HelpEntry name desc) mon_help).
Proof.
  intros Hw Ht Hlen. split.
  - unfold runcmd. rewrite parse_loop_words by assumption.
    cbn [List.length map snd].
    assert (E : (S (List.length rest) <=? 15)%nat = true)
      by (apply Nat.leb_le; lia).
    rewrite E. reflexivity.
  - rewrite lookup_command_listed, mon_help_lists. reflexivity.
Qed.

Lemma runcmd_dispatch_witness :
  runcmd (two_level_walk kaddr) sample_pgdir 32768 kaddr paddr sample_resolver
    (mkSymbols 0x0010000c 0xf010000c 0xf0101a75 0xf0112300 0xf0112960)
    0xf010ff18 4 sample_kernel
    (spaced [("", "showmapping"); (" ", "0xf0000123"); (" ", "0xf0001fff")]%string
       "")
  = match lookup_command commands "showmapping" with
    | Some c =>
        call (two_level_walk kaddr) sample_pgdir 32768 kaddr paddr
          sample_resolver
          (mkSymbols 0x0010000c 0xf010000c 0xf0101a75 0xf0112300 0xf0112960)
          0xf010ff18 c 4 sample_kernel
          ("showmapping"%string
             :: map snd [(" ", "0xf0000123"); (" ", "0xf0001fff")]%string)
    | None => Returns 0 sample_kernel [UnknownCommand "showmapping"]
    end
  /\ (lookup_command commands "showmapping" = None
      <-> ~ exists desc, In (HelpEntry "showmapping" desc) mon_help).
Proof.
  apply (runcmd_dispatch (two_level_walk kaddr) sample_pgdir 32768 kaddr paddr
           sample_resolver
           (mkSymbols 0x0010000c 0xf010000c 0xf0101a75 0xf0112300 0xf0112960)
           0xf010ff18 4 sample_kernel "" "showmapping"
           [(" ", "0xf0000123"); (" ", "0xf0001fff")]%string "").
  - reflexivity.
  - reflexivity.
  - simpl. lia.
Defined.

(** X13: a line of nothing but whitespace, the empty line included, is
    answered with nothing: no output, status 0, memory untouched. *)
Theorem runcmd_blank_line
  (pgdir_walk : memory -> Z -> Z -> Z) (kern_pgdir npages : Z)
  (KADDR PADDR : Z -> Z) (debuginfo_eip : Z -> Eipdebuginfo)
  (symbols : Symbols) (read_ebp : Z) (fuel : nat) (m : memory)
  (buf : string) :
  blank buf = true ->
  runcmd pgdir_walk kern_pgdir npages KADDR PADDR debuginfo_eip symbols
    read_ebp fuel m buf
  = Returns 0 m [].
Proof.
  intros Hb. unfold runcmd.
  pose proof (parse_loop_words [] buf ltac:(reflexivity) Hb) as E.
  cbn [spaced List.length map] in E. rewrite E. reflexivity.
Qed.

Lemma runcmd_blank_line_witness :
  runcmd (two_level_walk kaddr) sample_pgdir 32768 kaddr paddr sample_resolver
    (mkSymbols 0x0010000c 0xf010000c 0xf0101a75 0xf0112300 0xf0112960)
    0xf010ff18 4 sample_kernel (String " " (String "009" (String " " "")))
  = Returns 0 sample_kernel [].
Proof.
  apply (runcmd_blank_line (two_level_walk kaddr) sample_pgdir 32768 kaddr
           paddr sample_resolver
           (mkSymbols 0x0010000c 0xf010000c 0xf0101a75 0xf0112300 0xf0112960)
           0xf010ff18 4 sample_kernel
           (String " " (String "009" (String " " "")))).
  reflexivity.
Defined.

(** X14: a line of sixteen words or more is refused whole, whatever its
    first word: the only output is the too-many-arguments line (which names
    16 as the maximum, though fifteen words is the most that is accepted),
    and no command runs. *)
Theorem runcmd_too_many_words
  (pgdir_walk : memory -> Z -> Z -> Z) (kern_pgdir npages : Z)
  (KADDR PADDR : Z -> Z) (debuginfo_eip : Z -> Eipdebuginfo)
  (symbols : Symbols) (read_ebp : Z) (fuel : nat) (m : memory)
  (words : list (string * string)) (tail : string) :
  well_spaced true words = true ->
  blank tail = true ->
  (15 < List.length words)%nat ->
  runcmd pgdir_walk kern_pgdir npages KADDR PADDR debuginfo_eip symbols
    read_ebp fuel m (spaced words tail)
  = Returns 0 m [TooManyArguments 16].
Proof.
  intros Hw Ht Hlen. unfold runcmd.
  rewrite parse_loop_words by assumption.
  assert (E : (List.length words <=? 15)%nat = false)
    by (apply Nat.leb_gt; lia).
  rewrite E. reflexivity.
Qed.

Lemma runcmd_too_many_words_witness :
  runcmd (two_level_walk kaddr) sample_pgdir 32768 kaddr paddr sample_resolver
    (mkSymbols 0x0010000c 0xf010000c 0xf0101a75 0xf0112300 0xf0112960)
    0xf010ff18 4 sample_kernel
    (spaced (("", "help") :: repeat (" ", "x") 15)%string "")
  = Returns 0 sample_kernel [TooManyArguments 16].
Proof.
  apply (runcmd_too_many_words (two_level_walk kaddr) sample_pgdir 32768 kaddr
           paddr sample_resolver
           (mkSymbols 0x0010000c 0xf010000c 0xf0101a75 0xf0112300 0xf0112960)
           0xf010ff18 4 sample_kernel
           (("", "help") :: repeat (" ", "x") 15)%string "").
  - reflexivity.
  - reflexivity.
  - simpl. lia.
Defined.

(** ** mon_kerninfo *)

(** X15: for a kernel image of less than 2GB laid out with [entry] before
    [end], the footprint kerninfo prints is the image size rounded up to
    whole kilobytes. *)
Theorem kerninfo_footprint_rounds_up (symbols : Symbols) :
  let size := sym_end symbols - sym_entry symbols in
  0 <= size < 2 ^ 31 - 1024 ->
  exists kb,
    last (mon_kerninfo symbols) KernSymbols = KernFootprint kb
    /\ 1024 * (kb - 1) < size <= 1024 * kb.
Proof.
  intros size Hsize. exists ((size + 1023) / 1024). split.
  - cbn [mon_kerninfo last]. fold size. f_equal.
    unfold ROUNDUP, ROUNDDOWN.
    rewrite (wrap32_small size) by lia.
    rewrite (wrap32_small (size + 1024 - 1)) by lia.
    replace (size + 1024 - 1) with (size + 1023) by lia.
    pose proof (Z.div_mod (size + 1023) 1024 ltac:(lia)) as Hdm.
    pose proof (Z.mod_pos_bound (size + 1023) 1024 ltac:(lia)) as Hmod.
    replace (size + 1023 - (size + 1023) mod 1024)
      with (1024 * ((size + 1023) / 1024)) by lia.
    assert (Hq : 0 <= (size + 1023) / 1024) by (apply Z.div_pos; lia).
    rewrite wrap32_small by lia.
    unfold signed32.
    assert (E : (1024 * ((size + 1023) / 1024) <? 2 ^ 31) = true)
      by (apply Z.ltb_lt; lia).
    rewrite E. rewrite Z.quot_div_nonneg by lia.
    rewrite Z.mul_comm. apply Z.div_mul. lia.
  - pose proof (Z.div_mod (size + 1023) 1024 ltac:(lia)).
    pose proof (Z.mod_pos_bound (size + 1023) 1024 ltac:(lia)). lia.
Qed.

Lemma kerninfo_footprint_rounds_up_witness :
  exists kb,
    last (mon_kerninfo
            (mkSymbols 0x0010000c 0xf010000c 0xf0101a75 0xf0112300 0xf0112960))
         KernSymbols = KernFootprint kb
    /\ 1024 * (kb - 1) < 0xf0112960 - 0xf010000c <= 1024 * kb.
Proof.
  apply (kerninfo_footprint_rounds_up
           (mkSymbols 0x0010000c 0xf010000c 0xf0101a75 0xf0112300 0xf0112960)).
  simpl. lia.
Defined.

(** ** More on mon_setperm and mon_backtrace *)

Lemma mon_setperm_absent pgdir_walk kern_pgdir m va bits :
  pte_present m (pgdir_walk m kern_pgdir va) = false ->
  mon_setperm pgdir_walk kern_pgdir m va bits = (m, [PermNoMapping va]).
Proof. intros H. unfold mon_setperm. rewrite H. reflexivity. Qed.

Lemma mon_setperm_present pgdir_walk kern_pgdir m va bits :
  pte_present m (pgdir_walk m kern_pgdir va) = true ->
  mon_setperm pgdir_walk kern_pgdir m va bits
  = (store m (pgdir_walk m kern_pgdir va)
       (Z.lor (Z.lor (Z.land (load m (pgdir_walk m kern_pgdir va))
                        (Z.lnot 0xfff))
                 (Z.land bits 0xfff)) PTE_P),
     [PermSet (Z.land bits 0xfff) va]).
Proof. intros H. unfold mon_setperm. rewrite H. reflexivity. Qed.

(** X16: of two set_permissions on the same address the last one wins:
    doing one after the other leaves every word of memory as the second one
    alone would, and prints for the second what it alone would print. *)
Theorem setperm_last_wins (KADDR : Z -> Z) (kern_pgdir : Z) (m : memory)
  (va bits1 bits2 : Z) :
  let setperm := mon_setperm (two_level_walk KADDR) kern_pgdir in
  let m1 := fst (setperm m va bits1) in
  (forall p, load (fst (setperm m1 va bits2)) p
             = load (fst (setperm m va bits2)) p)
  /\ snd (setperm m1 va bits2) = snd (setperm m va bits2).
Proof.
  intros setperm m1. unfold m1, setperm. clear m1 setperm.
  destruct (pte_present m (two_level_walk KADDR m kern_pgdir va)) eqn:Hp.
  2:{ rewrite (mon_setperm_absent _ _ m va bits1) by exact Hp. cbn [fst].
      split; reflexivity. }
  rewrite (mon_setperm_present _ _ m va bits1) by exact Hp. cbn [fst].
  rewrite (mon_setperm_present _ _ m va bits2) by exact Hp. cbn [fst snd].
  set (pte := two_level_walk KADDR m kern_pgdir va) in *.
  set (v1 := Z.lor (Z.lor (Z.land (load m pte) (Z.lnot 0xfff))
                      (Z.land bits1 0xfff)) PTE_P).
  pose proof (load_range m pte) as Hold.
  assert (Hpres : Z.land (load m pte) PTE_P <> 0).
  { unfold pte_present in Hp. apply andb_prop in Hp. destruct Hp as [_ Hp].
    intros E. rewrite E in Hp. discriminate. }
  assert (Hwalk : two_level_walk KADDR (store m pte v1) kern_pgdir va = pte).
  { apply two_level_walk_store; unfold v1;
      rewrite rewritten_fits by exact Hold.
    - rewrite rewritten_present. symmetry. apply present_bit. exact Hpres.
    - apply rewritten_base. }
  assert (Hload : load (store m pte v1) pte = v1).
  { rewrite load_store_same. apply rewritten_fits. exact Hold. }
  assert (Hp1 : pte_present (store m pte v1)
                  (two_level_walk KADDR (store m pte v1) kern_pgdir va) = true).
  { rewrite Hwalk. unfold pte_present in *. rewrite Hload. unfold v1.
    rewrite rewritten_present. apply andb_prop in Hp. destruct Hp as [Hnz _].
    rewrite Hnz. reflexivity. }
  rewrite (mon_setperm_present _ _ (store m pte v1) va bits2) by exact Hp1.
  rewrite Hwalk, Hload. cbn [fst snd].
  assert (Hbase : Z.land v1 (Z.lnot 0xfff) = Z.land (load m pte) (Z.lnot 0xfff)).
  { apply rewritten_base. }
  rewrite Hbase. split; [|reflexivity].
  intros p. destruct (Z.eq_dec p pte) as [->|Hne].
  - rewrite !load_store_same. reflexivity.
  - rewrite !load_store_other by exact Hne. reflexivity.
Qed.

Lemma backtrace_loop_returns debuginfo_eip m fuel :
  forall ebp out,
    backtrace_loop debuginfo_eip fuel m ebp = Some out ->
    frame_chain m ebp (frame_bases out).
Proof.
  induction fuel as [|fuel IH]; intros ebp out E; [discriminate|].
  cbn [backtrace_loop] in E. destruct (Z.eqb_spec ebp 0) as [->|Hnz].
  - injection E as <-. constructor.
  - destruct (backtrace_loop debuginfo_eip fuel m (load m ebp)) as [rest|] eqn:R;
      [|discriminate].
    injection E as <-.
    change (frame_chain m ebp (ebp :: frame_bases rest)).
    constructor; [exact Hnz|]. apply IH. exact R.
Qed.

(** X17: the backtrace returns only on a frame chain that ends: whenever it
    returns, the frame bases it printed are linked by the saved-base words in
    memory, from the starting base to a zero link.  On a chain that loops it
    never returns. *)
Theorem backtrace_returns_on_ending_chain
  (debuginfo_eip : Z -> Eipdebuginfo) (m : memory) (fuel : nat) (ebp : Z)
  (out : list line) :
  mon_backtrace debuginfo_eip fuel m ebp = Some out ->
  frame_chain m ebp (frame_bases out).
Proof.
  unfold mon_backtrace.
  destruct (backtrace_loop debuginfo_eip fuel m ebp) as [frames|] eqn:E;
    [|discriminate].
  intros H. injection H as <-.
  apply (backtrace_loop_returns debuginfo_eip m fuel ebp frames E).
Qed.

Lemma backtrace_returns_on_ending_chain_witness :
  frame_chain sample_stack 0xf010ff18
    (frame_bases
       [ BacktraceHeader;
         BacktraceFrame 0xf010ff18 0xf010ff1c
           [0xf010ff20; 0xf010ff24; 0xf010ff28; 0xf010ff2c; 0xf010ff30];
         BacktraceInfo "kern/init.c" 24 14 "test_backtrace" 5;
         BacktraceFrame 0xf010ff38 0xf010ff3c
           [0xf010ff40; 0xf010ff44; 0xf010ff48; 0xf010ff4c; 0xf010ff50];
         BacktraceInfo "kern/init.c" 24 14 "test_backtrace" 5 ]).
Proof.
  apply (backtrace_returns_on_ending_chain sample_resolver sample_stack 3
           0xf010ff18).
  vm_compute. reflexivity.
Defined.

(** ** More on the dumps *)

Lemma for_units_returns body next_addr :
  next_addr <= 2 ^ 32 - 4 ->
  forall (fuel : nat) a out a',
    0 <= a ->
    for_units fuel body a next_addr = Some (out, a') ->
    out = map body (units a next_addr)
    /\ a' = a + UNIT_LEN * Z.of_nat (stride_count UNIT_LEN a next_addr).
Proof.
  intros Hnext. unfold units.
  induction fuel as [|fuel IH]; intros a out a' Ha E; [discriminate|].
  cbn [for_units] in E. destruct (Z.ltb_spec a next_addr) as [Hlt|Hge].
  - rewrite wrap32_small in E by (unfold UNIT_LEN; lia).
    destruct (for_units fuel body (a + UNIT_LEN) next_addr) as [[o a'']|] eqn:R;
      [|discriminate].
    injection E as <- <-.
    destruct (IH (a + UNIT_LEN) o a'' ltac:(unfold UNIT_LEN; lia) R) as [-> ->].
    rewrite (stride_count_more UNIT_LEN ltac:(reflexivity) a) by exact Hlt.
    rewrite stride_more. split; [reflexivity|lia].
  - injection E as <- <-.
    rewrite (stride_count_done UNIT_LEN ltac:(reflexivity)) by exact Hge.
    split; [reflexivity|cbn; lia].
Qed.

Lemma in_units x lo hi :
  In x (units lo hi) -> lo <= x < hi /\ (UNIT_LEN | x - lo).
Proof.
  unfold units, stride, stride_count, UNIT_LEN. intros H.
  apply in_map_iff in H. destruct H as [k [<- Hk]]. apply in_seq in Hk.
  assert (Hq : Z.of_nat k + 1 <= (hi - lo + (4 - 1)) / 4) by lia.
  pose proof (Z.mul_div_le (hi - lo + (4 - 1)) 4 ltac:(lia)).
  split; [lia|]. exists (Z.of_nat k). lia.
Qed.

Lemma ROUNDDOWN_unit_aligned a : (UNIT_LEN | ROUNDDOWN a UNIT_LEN).
Proof.
  unfold ROUNDDOWN, wrap32, UNIT_LEN.
  pose proof (Z.div_mod a 4 ltac:(lia)).
  pose proof (Z.div_mod (a - a mod 4) (2 ^ 32) ltac:(lia)).
  exists (a / 4 - 2 ^ 30 * ((a - a mod 4) / 2 ^ 32)). lia.
Qed.

(** X18: a physical-mode dump never reads past installed memory nor past
    the 256MB the kernel maps: whenever it returns, every address it printed
    a word for is a multiple of 4 below both npages * PGSIZE (in 32 bits) and
    2^32 - KERNBASE. *)
Theorem physical_dump_within_memory
  (pgdir_walk : memory -> Z -> Z -> Z) (kern_pgdir npages : Z)
  (KADDR : Z -> Z) (fuel : nat) (m : memory) (start_addr n : Z)
  (out : list line) :
  mon_dumpmemory pgdir_walk kern_pgdir npages KADDR fuel m true start_addr n
  = Some out ->
  Forall (fun pa => 0 <= pa < wrap32 (npages * PGSIZE)
                    /\ pa < MAX_MEM - KERNBASE + 1
                    /\ (UNIT_LEN | pa))
         (dump_addresses out).
Proof.
  unfold mon_dumpmemory, dump_physmem.
  set (start_pa := ROUNDDOWN start_addr UNIT_LEN).
  set (end_pa := wrap32 (start_pa + wrap32 (n * UNIT_LEN))).
  destruct (Z.gtb_spec end_pa (wrap32 (npages * PGSIZE))) as [Hgt|Hle].
  - intros E. injection E as <-. constructor.
  - change (wrap32 (MAX_MEM - KERNBASE + 1)) with (MAX_MEM - KERNBASE + 1).
    rewrite MIN_ADDR_min.
    destruct (for_units fuel _ start_pa _) as [[o a']|] eqn:R; [|discriminate].
    intros E. injection E as <-.
    assert (Hstart : 0 <= start_pa) by apply wrap32_range.
    apply for_units_returns in R;
      [|unfold MAX_MEM, KERNBASE; lia|exact Hstart].
    destruct R as [-> _].
    rewrite dump_addresses_map by reflexivity.
    apply Forall_forall. intros pa Hin. apply in_units in Hin.
    destruct Hin as [Hrange Hal].
    split; [lia|]. split; [lia|].
    replace pa with ((pa - start_pa) + start_pa) by lia.
    apply Z.divide_add_r; [exact Hal|apply ROUNDDOWN_unit_aligned].
Qed.

Lemma physical_dump_within_memory_witness :
  Forall (fun pa => 0 <= pa < wrap32 (16 * PGSIZE)
                    /\ pa < MAX_MEM - KERNBASE + 1
                    /\ (UNIT_LEN | pa))
         (dump_addresses
            [ PhysUnit 0xfff0 0; PhysUnit 0xfff4 0; PhysUnit 0xfff8 0 ]).
Proof.
  apply (physical_dump_within_memory (two_level_walk kaddr) sample_pgdir 16
           kaddr 8 sample_kernel 0xfff2 3).
  vm_compute. reflexivity.
Defined.

Lemma virtmem_loop_returns
  (pgdir_walk : memory -> Z -> Z -> Z) (kern_pgdir : Z) (m : memory)
  (end_va : Z) :
  end_va <= 2 ^ 32 - 4 -> (UNIT_LEN | end_va) ->
  forall (fuel : nat) va out,
    0 <= va -> (UNIT_LEN | va) ->
    virtmem_loop pgdir_walk kern_pgdir fuel m va end_va = Some out ->
    dump_addresses out = units va end_va.
Proof.
  intros Hend Hal_end.
  induction fuel as [|fuel IH]; intros va out Hva Hal_va E; [discriminate|].
  destruct (Z.ltb_spec va end_va) as [Hlt|Hge].
  - destruct (boundary_lost (pgdir_walk m kern_pgdir va) va) eqn:Hlost.
    { rewrite (virtmem_loop_lost pgdir_walk kern_pgdir m va end_va
                 ltac:(lia) ltac:(lia) Hlost) in E. discriminate. }
    pose proof (virt_run_bound pgdir_walk kern_pgdir m va end_va
                  ltac:(lia) Hlost) as Hbound.
    assert (Hnext : va < snd (virt_run pgdir_walk kern_pgdir m va end_va)
                    <= end_va).
    { rewrite Hbound. pose proof (next_pde_after va).
      pose proof (next_page_after va).
      destruct (pgdir_walk m kern_pgdir va =? 0); lia. }
    assert (Hal_next :
              (UNIT_LEN | snd (virt_run pgdir_walk kern_pgdir m va end_va))).
    { rewrite Hbound.
      destruct (pgdir_walk m kern_pgdir va =? 0);
        apply Z.min_case; auto using next_pde_aligned, next_page_aligned. }
    pose proof (virt_run_address pgdir_walk kern_pgdir m va end_va) as Haddr.
    cbn [virtmem_loop] in E.
    assert (Hlt' : (va <? end_va) = true) by (apply Z.ltb_lt; exact Hlt).
    rewrite Hlt' in E.
    destruct (virt_run pgdir_walk kern_pgdir m va end_va) as [body next_addr].
    cbn [fst snd] in *.
    destruct (for_units fuel body va next_addr) as [[o va']|] eqn:R;
      [|discriminate].
    apply for_units_returns in R; [|lia|exact Hva].
    destruct R as [-> ->].
    assert (Hland : va + UNIT_LEN
                         * Z.of_nat (stride_count UNIT_LEN va next_addr)
                    = next_addr).
    { apply (stride_count_aligned UNIT_LEN ltac:(reflexivity)); [lia|].
      apply Z.mod_divide; [discriminate|]. apply Z.divide_sub_r; assumption. }
    rewrite Hland in E.
    destruct (virtmem_loop pgdir_walk kern_pgdir fuel m next_addr end_va)
      as [rest|] eqn:Rrest; [|discriminate].
    injection E as <-.
    rewrite dump_addresses_app, dump_addresses_map by exact Haddr.
    rewrite (IH next_addr rest ltac:(lia) Hal_next Rrest).
    unfold units.
    rewrite (stride_count_split UNIT_LEN va next_addr end_va
               ltac:(reflexivity) ltac:(lia)
               ltac:(apply Z.divide_sub_r; assumption)).
    rewrite stride_app, Hland. reflexivity.
  - cbn [virtmem_loop] in E.
    assert (Hge' : (va <? end_va) = false) by (apply Z.ltb_ge; exact Hge).
    rewrite Hge' in E. injection E as <-.
    unfold units.
    rewrite (stride_count_done UNIT_LEN ltac:(reflexivity)) by exact Hge.
    reflexivity.
Qed.

(** X19: a virtual-mode dump fails only by not returning: for a range that
    does not wrap, whenever the dump returns, whatever the page tables hold,
    the addresses of its records are exactly the 4-byte units from the
    aligned start to the end, in order, each once. *)
Theorem virtual_dump_returns_covered
  (pgdir_walk : memory -> Z -> Z -> Z) (kern_pgdir npages : Z)
  (KADDR : Z -> Z) (m : memory) (fuel : nat) (start_addr n : Z)
  (out : list line) :
  let start_va := ROUNDDOWN start_addr UNIT_LEN in
  let end_va := start_va + n * UNIT_LEN in
  0 <= n -> end_va < 2 ^ 32 ->
  mon_dumpmemory pgdir_walk kern_pgdir npages KADDR fuel m false start_addr n
  = Some out ->
  dump_addresses out = units start_va end_va.
Proof.
  intros start_va end_va Hn He.
  pose proof (ROUNDDOWN_unit_aligned start_addr) as Hal_s. fold start_va in Hal_s.
  assert (Hs : 0 <= start_va) by apply wrap32_range.
  unfold mon_dumpmemory, dump_virtmem. fold start_va.
  assert (Hend : wrap32 (start_va + wrap32 (n * UNIT_LEN)) = end_va).
  { unfold end_va, UNIT_LEN in *.
    rewrite (wrap32_small (n * 4)) by lia. apply wrap32_small. lia. }
  rewrite Hend.
  assert (Hal_e : (UNIT_LEN | end_va)).
  { unfold end_va. apply Z.divide_add_r; [exact Hal_s|].
    apply Z.divide_factor_r. }
  apply virtmem_loop_returns; try assumption.
  destruct Hal_e as [k Hk]. unfold UNIT_LEN in *. lia.
Qed.

Lemma virtual_dump_returns_covered_witness :
  dump_addresses
    (VirtUnmapped 0x0ffc
       :: map (fun a => VirtMapped a (0x5000 + (a - 0x1000))
                          (load scenario_kernel a))
              (units 0x1000 0x2000)
       ++ [VirtUnmapped 0x2000; VirtUnmapped 0x2004])
  = units (ROUNDDOWN 0x0ffc UNIT_LEN) (ROUNDDOWN 0x0ffc UNIT_LEN + 1027 * UNIT_LEN).
Proof.
  apply (virtual_dump_returns_covered (two_level_walk kaddr) sample_pgdir 16
           kaddr scenario_kernel 1100 0x0ffc 1027).
  - lia.
  - vm_compute. reflexivity.
  - vm_compute. reflexivity.
Defined.

(** ** From the command line to the commands *)

Lemma solid_app a b : solid (a ++ b) = solid a && solid b.
Proof.
  induction a as [|c a IH]; [reflexivity|]. cbn [append solid].
  rewrite IH. apply andb_assoc.
Qed.

Lemma digit_char_solid d :
  0 <= d < 16 ->
  negb (is_nul (digit_char d)) && negb (is_whitespace (digit_char d)) = true.
Proof.
  intros H. pose proof (digit_char_cases d H) as C.
  repeat (destruct C as [->|C]; [reflexivity|]). subst d. reflexivity.
Qed.

Lemma numeral_solid base width n :
  0 < base <= 16 -> solid (numeral base width n) = true.
Proof.
  intros Hb. revert n. induction width as [|w IH]; intros n; [reflexivity|].
  cbn [numeral]. rewrite solid_app, IH. cbn [solid andb].
  rewrite digit_char_solid; [reflexivity|].
  pose proof (Z.mod_pos_bound n base ltac:(lia)). lia.
Qed.

Lemma hex_argument_word width n :
  word (String "0" (String "x" (numeral 16 width n))) = true.
Proof.
  unfold word. cbn [String.eqb negb andb solid].
  rewrite numeral_solid by lia. reflexivity.
Qed.

Lemma join_spaced w rest :
  join (w :: rest)
  = spaced (("", w) :: map (fun x => (" ", x)) rest)%string "".
Proof.
  revert w. induction rest as [|x rest IH]; intros w.
  - cbn. rewrite string_app_empty. reflexivity.
  - change (join (w :: x :: rest)) with (w ++ String " " (join (x :: rest)))%string.
    rewrite IH. reflexivity.
Qed.

Lemma well_spaced_join first rest :
  Forall (fun x => word x = true) rest ->
  well_spaced first (map (fun x => (" ", x)) rest)%string = true.
Proof.
  revert first. induction rest as [|x rest IH]; intros first H; [reflexivity|].
  inversion H as [|? ? Hx Hrest]; subst.
  cbn [map well_spaced]. rewrite Hx, (IH false Hrest).
  destruct first; reflexivity.
Qed.

(** X20: splitting undoes joining: a line made of at most fifteen words
    joined by single blanks is split by runcmd into those very words. *)
Theorem parse_loop_join (words : list string) :
  Forall (fun w => word w = true) words ->
  (List.length words <= 15)%nat ->
  parse_loop (S (String.length (join words))) (join words) [] = Some (Some words).
Proof.
  intros Hw Hlen. destruct words as [|w rest]; [reflexivity|].
  inversion Hw as [|? ? Hword Hrest]; subst.
  rewrite join_spaced, parse_loop_words.
  - cbn [List.length map snd] in *.
    assert (E : (S (List.length (map (fun x => (" ", x)) rest)%string) <=? 15)%nat
                = true)
      by (apply Nat.leb_le; rewrite length_map; lia).
    rewrite E, map_map. cbn [snd]. rewrite map_id. reflexivity.
  - cbn [well_spaced blank orb andb String.eqb]. rewrite Hword.
    apply (well_spaced_join false rest Hrest).
  - reflexivity.
Qed.

Lemma parse_loop_join_witness :
  parse_loop
    (S (String.length (join ["dumpmem"; "v"; "0xf0100000"; "16"]%string)))
    (join ["dumpmem"; "v"; "0xf0100000"; "16"]%string) []
  = Some (Some ["dumpmem"; "v"; "0xf0100000"; "16"]%string).
Proof.
  apply (parse_loop_join ["dumpmem"; "v"; "0xf0100000"; "16"]%string).
  - repeat constructor.
  - simpl. lia.
Defined.

Lemma numeral_word base width n :
  0 < base <= 16 -> word (numeral base (S width) n) = true.
Proof.
  intros Hb. unfold word. rewrite numeral_solid by exact Hb.
  cbn [numeral]. destruct (numeral base width (n / base)); reflexivity.
Qed.

(** X21: a command line made of a command's name and its numbers written
    out, addresses and permission bits as 0x and eight lowercase hex digits,
    the unit count as ten decimal digits, runs that command on those numbers,
    for every 32-bit value of each. *)
Theorem command_lines_reach_commands
  (pgdir_walk : memory -> Z -> Z -> Z) (kern_pgdir npages : Z)
  (KADDR PADDR : Z -> Z) (debuginfo_eip : Z -> Eipdebuginfo)
  (symbols : Symbols) (read_ebp : Z) (fuel : nat) (m : memory)
  (a b n : Z) :
  let run := runcmd pgdir_walk kern_pgdir npages KADDR PADDR debuginfo_eip
               symbols read_ebp fuel m in
  let hex x := String "0" (String "x" (numeral 16 8 x)) in
  0 <= a < 2 ^ 32 -> 0 <= b < 2 ^ 32 -> 0 <= n < 2 ^ 32 ->
  run (join ["setperm"%string; hex a; hex b])
  = Returns 0 (fst (mon_setperm pgdir_walk kern_pgdir m a b))
      (map Out (snd (mon_setperm pgdir_walk kern_pgdir m a b)))
  /\ run (join ["showmapping"%string; hex a; hex b])
     = lines m (mon_showmapping pgdir_walk kern_pgdir PADDR fuel m a b)
  /\ run (join ["dumpmem"%string; "v"%string; hex a; numeral 10 10 n])
     = lines m (mon_dumpmemory pgdir_walk kern_pgdir npages KADDR fuel m
                  false a n)
  /\ run (join ["dumpmem"%string; "p"%string; hex a; numeral 10 10 n])
     = lines m (mon_dumpmemory pgdir_walk kern_pgdir npages KADDR fuel m
                  true a n).
Proof.
  intros run hex Ha Hb Hn. unfold run, runcmd.
  assert (Hhex : forall x, 0 <= x < 2 ^ 32 -> hex2uint (hex x) = Some x).
  { intros x Hx. apply hex2uint_numeral; try reflexivity; lia. }
  assert (Hdec : dec2uint (numeral 10 10 n) = n)
    by (apply dec2uint_numeral; lia).
  assert (Hwh : forall x, word (hex x) = true)
    by (intros x; apply hex_argument_word).
  assert (Hwd : word (numeral 10 10 n) = true)
    by (apply numeral_word; lia).
  repeat split.
  - rewrite parse_loop_join; [|repeat constructor; auto|simpl; lia].
    cbn [lookup_command commands String.eqb Ascii.eqb Bool.eqb call
           setperm_command].
    rewrite (Hhex a Ha), (Hhex b Hb).
    destruct (mon_setperm pgdir_walk kern_pgdir m a b). reflexivity.
  - rewrite parse_loop_join; [|repeat constructor; auto|simpl; lia].
    cbn [lookup_command commands String.eqb Ascii.eqb Bool.eqb call
           showmapping_command].
    rewrite (Hhex a Ha), (Hhex b Hb). reflexivity.
  - rewrite parse_loop_join; [|repeat constructor; auto|simpl; lia].
    cbn [lookup_command commands String.eqb Ascii.eqb Bool.eqb call
           dumpmemory_command first_char negb andb].
    rewrite (Hhex a Ha), Hdec. reflexivity.
  - rewrite parse_loop_join; [|repeat constructor; auto|simpl; lia].
    cbn [lookup_command commands String.eqb Ascii.eqb Bool.eqb call
           dumpmemory_command first_char negb andb].
    rewrite (Hhex a Ha), Hdec. reflexivity.
Qed.

Lemma command_lines_reach_commands_witness :
  let run := runcmd (two_level_walk kaddr) sample_pgdir 32768 kaddr paddr
               sample_resolver
               (mkSymbols 0x0010000c 0xf010000c 0xf0101a75 0xf0112300
                  0xf0112960)
               0xf010ff18 8 sample_kernel in
  let hex x := String "0" (String "x" (numeral 16 8 x)) in
  run (join ["setperm"%string; hex 0xf0001000; hex 0x6])
  = Returns 0
      (fst (mon_setperm (two_level_walk kaddr) sample_pgdir sample_kernel
              0xf0001000 0x6))
      (map Out
         (snd (mon_setperm (two_level_walk kaddr) sample_pgdir sample_kernel
                 0xf0001000 0x6)))
  /\ run (join ["showmapping"%string; hex 0xf0001000; hex 0x6])
     = lines sample_kernel
         (mon_showmapping (two_level_walk kaddr) sample_pgdir paddr 8
            sample_kernel 0xf0001000 0x6)
  /\ run (join ["dumpmem"%string; "v"%string; hex 0xf0001000;
                numeral 10 10 3])
     = lines sample_kernel
         (mon_dumpmemory (two_level_walk kaddr) sample_pgdir 32768 kaddr 8
            sample_kernel false 0xf0001000 3)
  /\ run (join ["dumpmem"%string; "p"%string; hex 0xf0001000;
                numeral 10 10 3])
     = lines sample_kernel
         (mon_dumpmemory (two_level_walk kaddr) sample_pgdir 32768 kaddr 8
            sample_kernel true 0xf0001000 3).
Proof.
  apply (command_lines_reach_commands (two_level_walk kaddr) sample_pgdir 32768
           kaddr paddr sample_resolver
           (mkSymbols 0x0010000c 0xf010000c 0xf0101a75 0xf0112300 0xf0112960)
           0xf010ff18 8 sample_kernel 0xf0001000 0x6 3); lia.
Defined.

Lemma rewritten_writable old perm :
  Z.land (Z.lor (Z.lor (Z.land old (Z.lnot 0xfff)) (Z.land perm 0xfff)) PTE_P)
         PTE_W
  = Z.land perm PTE_W.
Proof.
  unfold PTE_P. change 1 with (Z.ones 1). change 0xfff with (Z.ones 12).
  unfold PTE_W. change 2 with (Z.land (Z.ones 2) (Z.lnot (Z.ones 1))).
  Z.bitblast.
Qed.

Lemma rewritten_user old perm :
  Z.land (Z.lor (Z.lor (Z.land old (Z.lnot 0xfff)) (Z.land perm 0xfff)) PTE_P)
         PTE_U
  = Z.land perm PTE_U.
Proof.
  unfold PTE_P. change 1 with (Z.ones 1). change 0xfff with (Z.ones 12).
  unfold PTE_U. change 4 with (Z.land (Z.ones 3) (Z.lnot (Z.ones 2))).
  Z.bitblast.
Qed.

Lemma page_indices va :
  0 <= va < 2 ^ 32 ->
  PDX (ROUNDDOWN va PGSIZE) = PDX va /\ PTX (ROUNDDOWN va PGSIZE) = PTX va.
Proof.
  intros Hva.
  destruct (ROUNDDOWN_aligned va PGSIZE ltac:(reflexivity) Hva) as [E Hr].
  assert (Hpage : ROUNDDOWN va PGSIZE / 2 ^ 12 = va / 2 ^ 12).
  { rewrite E. unfold PGSIZE. change 4096 with (2 ^ 12).
    rewrite Z.mul_comm. apply Z.div_mul. lia. }
  split.
  - rewrite !PDX_div by lia.
    change (2 ^ 22) with (2 ^ 12 * 2 ^ 10).
    rewrite <- !Z.div_div by lia. rewrite Hpage. reflexivity.
  - rewrite !PTX_div. rewrite Hpage. reflexivity.
Qed.

(** X22: what set_permissions sets is what show-mapping then shows: for an
    address with a present mapping, below the last page, show-mapping of that
    address after set_permissions prints one record, with the physical base
    the entry had before and the writable and user flags of the bits that
    were set. *)
Theorem showmapping_after_setperm (KADDR PADDR : Z -> Z) (kern_pgdir : Z)
  (m : memory) (fuel : nat) (va bits : Z) :
  let walk := two_level_walk KADDR in
  let pte := walk m kern_pgdir va in
  let page := ROUNDDOWN va PGSIZE in
  0 <= va < 2 ^ 32 - PGSIZE ->
  pte_present m pte = true ->
  (1 < fuel)%nat ->
  mon_showmapping walk kern_pgdir PADDR fuel
    (fst (mon_setperm walk kern_pgdir m va bits)) va va
  = Some [ ShowRange page page; ShowVA page;
           PtePA (PTE_ADDR (load m pte))
                 (negb (Z.land bits PTE_W =? 0))
                 (negb (Z.land bits PTE_U =? 0)) ].
Proof.
  intros walk pte page Hva Hp Hfuel. unfold walk in *. clear walk.
  rewrite mon_setperm_present by exact Hp. fold pte. cbn [fst].
  set (v := Z.lor (Z.lor (Z.land (load m pte) (Z.lnot 0xfff))
                     (Z.land bits 0xfff)) PTE_P).
  pose proof (load_range m pte) as Hold.
  assert (Hpres : Z.land (load m pte) PTE_P <> 0).
  { unfold pte_present in Hp. apply andb_prop in Hp. destruct Hp as [_ Hp'].
    intros E. rewrite E in Hp'. discriminate. }
  assert (Hfits : wrap32 v = v) by (apply rewritten_fits; exact Hold).
  assert (Hwalk : two_level_walk KADDR (store m pte v) kern_pgdir page = pte).
  { unfold two_level_walk, page.
    destruct (page_indices va ltac:(unfold PGSIZE in *; lia)) as [-> ->].
    apply two_level_walk_store; rewrite Hfits; unfold v.
    - rewrite rewritten_present. symmetry. apply present_bit. exact Hpres.
    - apply rewritten_base. }
  destruct (ROUNDDOWN_aligned va PGSIZE ltac:(reflexivity)
              ltac:(unfold PGSIZE in *; lia)) as [_ Hpage].
  fold page in Hpage.
  rewrite showmapping_closed_range;
    [|unfold PGSIZE in *; lia|lia|fold page].
  2:{ rewrite (stride_count_more PGSIZE ltac:(reflexivity)) by lia.
      rewrite (stride_count_done PGSIZE ltac:(reflexivity))
        by (unfold PGSIZE; lia). lia. }
  fold page. unfold pages.
  rewrite (stride_count_more PGSIZE ltac:(reflexivity)) by lia.
  rewrite (stride_count_done PGSIZE ltac:(reflexivity)) by (unfold PGSIZE; lia).
  rewrite stride_more. cbn [stride seq map flat_map app].
  rewrite Hwalk. unfold print_pte, pte_present.
  rewrite load_store_same, Hfits. unfold v.
  rewrite rewritten_present, rewritten_base, rewritten_writable, rewritten_user.
  unfold pte_present in Hp. apply andb_prop in Hp. destruct Hp as [Hnz _].
  rewrite Hnz. reflexivity.
Qed.

Lemma showmapping_after_setperm_witness :
  mon_showmapping (two_level_walk kaddr) sample_pgdir paddr 2
    (fst (mon_setperm (two_level_walk kaddr) sample_pgdir sample_kernel
            0xf0001234 0x4))
    0xf0001234 0xf0001234
  = Some [ ShowRange (ROUNDDOWN 0xf0001234 PGSIZE) (ROUNDDOWN 0xf0001234 PGSIZE);
           ShowVA (ROUNDDOWN 0xf0001234 PGSIZE);
           PtePA (PTE_ADDR
                    (load sample_kernel
                       (two_level_walk kaddr sample_kernel sample_pgdir
                          0xf0001234)))
                 (negb (Z.land 0x4 PTE_W =? 0))
                 (negb (Z.land 0x4 PTE_U =? 0)) ].
Proof.
  apply (showmapping_after_setperm kaddr paddr sample_pgdir sample_kernel 2
           0xf0001234 0x4).
  - unfold PGSIZE. lia.
  - vm_compute. reflexivity.
  - lia.
Defined.

(** X23: show-mapping with an end address below the last page of the
    address space returns, and prints after its header one address line and
    one entry line per page, from the page of the start address through the
    page of the end address; none when the start page lies above the end
    page. *)
Theorem showmapping_page_by_page
  (pgdir_walk : memory -> Z -> Z -> Z) (kern_pgdir : Z) (PADDR : Z -> Z)
  (m : memory) (fuel : nat) (start_addr end_addr : Z) :
  let first := ROUNDDOWN start_addr PGSIZE in
  let last := ROUNDDOWN end_addr PGSIZE in
  0 <= start_addr < 2 ^ 32 ->
  0 <= end_addr < 2 ^ 32 - PGSIZE ->
  (stride_count PGSIZE first (last + 1) < fuel)%nat ->
  mon_showmapping pgdir_walk kern_pgdir PADDR fuel m start_addr end_addr
  = Some (ShowRange first last
            :: flat_map
                 (fun va => [ShowVA va;
                             print_pte kern_pgdir PADDR m
                               (pgdir_walk m kern_pgdir va)])
                 (pages first last))
  /\ (last < first -> pages first last = []).
Proof.
  intros first last Hs He Hfuel. split.
  - apply showmapping_closed_range; assumption.
  - intros Hlt. unfold pages.
    rewrite (stride_count_done PGSIZE ltac:(reflexivity)) by lia.
    reflexivity.
Qed.

Lemma showmapping_page_by_page_witness :
  mon_showmapping (two_level_walk kaddr) sample_pgdir paddr 4 sample_kernel
    0xf0000123 0xf0001fff
  = Some (ShowRange (ROUNDDOWN 0xf0000123 PGSIZE) (ROUNDDOWN 0xf0001fff PGSIZE)
            :: flat_map
                 (fun va => [ShowVA va;
                             print_pte sample_pgdir paddr sample_kernel
                               (two_level_walk kaddr sample_kernel
                                  sample_pgdir va)])
                 (pages (ROUNDDOWN 0xf0000123 PGSIZE)
                        (ROUNDDOWN 0xf0001fff PGSIZE)))
  /\ (ROUNDDOWN 0xf0001fff PGSIZE < ROUNDDOWN 0xf0000123 PGSIZE ->
      pages (ROUNDDOWN 0xf0000123 PGSIZE) (ROUNDDOWN 0xf0001fff PGSIZE) = []).
Proof.
  apply (showmapping_page_by_page (two_level_walk kaddr) sample_pgdir paddr
           sample_kernel 4 0xf0000123 0xf0001fff).
  - lia.
  - unfold PGSIZE. lia.
  - apply Nat.ltb_lt. vm_compute. reflexivity.
Defined.

(** X24: the unit count of dumpmem is multiplied by 4 in 32 bits, so only
    its low 30 bits count: adding any multiple of 2^30 to the count changes
    nothing, and a count of 2^30 dumps as a count of 0 does. *)
Theorem dump_count_wraps
  (pgdir_walk : memory -> Z -> Z -> Z) (kern_pgdir npages : Z)
  (KADDR : Z -> Z) (fuel : nat) (m : memory) (phys : bool)
  (start_addr n k : Z) :
  mon_dumpmemory pgdir_walk kern_pgdir npages KADDR fuel m phys start_addr
    (n + k * 2 ^ 30)
  = mon_dumpmemory pgdir_walk kern_pgdir npages KADDR fuel m phys start_addr n.
Proof.
  unfold mon_dumpmemory.
  assert (E : wrap32 ((n + k * 2 ^ 30) * UNIT_LEN) = wrap32 (n * UNIT_LEN)).
  { unfold wrap32, UNIT_LEN.
    replace ((n + k * 2 ^ 30) * 4) with (n * 4 + k * 2 ^ 32) by lia.
    apply Z.mod_add. lia. }
  rewrite E. reflexivity.
Qed.
